(** * compress_pdf.py: a shallow embedding and its properties

    The script re-encodes the images of a PDF through PyMuPDF ([fitz]) and
    saves the result.  PyMuPDF is an external library: it appears here as an
    interface ([Fitz]) whose operations are parameters of the model, and the
    script's own control flow (the processed-set, the two [try] blocks, the
    downscale decision, the size report, the default output name) is
    translated line by line from [src/compress_pdf.py].  Properties that
    hold whatever the library does are proved over the interface; those
    that depend on what a library call returns state it as a hypothesis,
    and are run on a small executable model of the library ([Model]). *)

From Stdlib Require Import ZArith Lia Ascii String List Bool.
From Stdlib Require Import Floats.SpecFloat.
From stdpp Require Import base gmap strings list pretty.

Local Open Scope string_scope.
Local Open Scope list_scope.
Local Open Scope Z_scope.

(** ** Python strings: the slices and searches [os.path.splitext] uses *)

Module PyStr.

(** [s.rfind(c)] for a one-character [c]: the highest index holding [c],
    or [-1]. *)
Fixpoint rfind (c : ascii) (s : string) : Z :=
  match s with
  | EmptyString => -1
  | String a s' =>
      let r := rfind c s' in
      if 0 <=? r then r + 1
      else if Ascii.eqb a c then 0 else -1
  end.

(** [s[:n]] and [s[n:]] for [0 <= n]. *)
Fixpoint take (n : nat) (s : string) : string :=
  match n, s with
  | O, _ => EmptyString
  | S _, EmptyString => EmptyString
  | S n', String a s' => String a (take n' s')
  end.

Fixpoint drop (n : nat) (s : string) : string :=
  match n, s with
  | O, _ => s
  | S _, EmptyString => EmptyString
  | S n', String _ s' => drop n' s'
  end.

(** [s[i:i+1]]: the empty string past the end. *)
Definition at1 (i : nat) (s : string) : string := take 1 (drop i s).

End PyStr.

(** ** [os.path.splitext] (posixpath: [sep = "/"], no [altsep],
     [extsep = "."]) *)

Module OsPath.
Import PyStr.

Definition sep : ascii := "/"%char.
Definition extsep : ascii := "."%char.

(** The [while filenameIndex < dotIndex] loop of [genericpath._splitext]:
    it returns as soon as a character of the base name before the last dot
    is not a dot; [fuel] is [dotIndex - filenameIndex]. *)
Fixpoint skip_leading_dots (p : string) (filenameIndex : nat) (fuel : nat)
  : bool :=
  match fuel with
  | O => false
  | S fuel' =>
      if String.eqb (at1 filenameIndex p) (String extsep EmptyString)
      then skip_leading_dots p (S filenameIndex) fuel'
      else true
  end.

Definition splitext (p : string) : string * string :=
  let sepIndex := rfind sep p in
  let dotIndex := rfind extsep p in
  if (sepIndex <? dotIndex)
     && skip_leading_dots p (Z.to_nat (sepIndex + 1))
          (Z.to_nat (dotIndex - (sepIndex + 1)))
  then (take (Z.to_nat dotIndex) p, drop (Z.to_nat dotIndex) p)
  else (p, EmptyString).

(** The part of a path up to and including its last [sep]: what
    [os.path.split] takes as the directory before stripping slashes. *)
Definition dir_prefix (p : string) : string :=
  take (Z.to_nat (rfind sep p + 1)) p.

End OsPath.

(** ** Exceptions and results *)

(** The exceptions the script can meet.  All of them are subclasses of
    Python's [Exception], so an [except Exception] clause catches each. *)
Inductive exn : Type :=
| ZeroDivisionError
| AttributeError (msg : string)
| OSError (msg : string)
| LibraryError (msg : string).

Inductive result (A : Type) : Type :=
| Ok (a : A)
| Raise (e : exn).
Arguments Ok {A} a.
Arguments Raise {A} e.

Definition is_ok {A} (r : result A) : bool :=
  match r with Ok _ => true | Raise _ => false end.

(** ** Python numbers *)

Module PyNum.

(** [a // b] on ints: floor division, [ZeroDivisionError] on a zero divisor.
    [Z.div] rounds towards minus infinity for either sign of [b], as [//]
    does. *)
Definition floordiv (a b : Z) : result Z :=
  if b =? 0 then Raise ZeroDivisionError else Ok (a / b).

(** A Python [float] is an IEEE 754 binary64. *)
Definition prec : Z := 53.
Definition emax : Z := 1024.
Definition float : Type := spec_float.

(** [float(n)], exact for [|n| <= 2^53] and rounded to nearest-even above. *)
Definition of_int (n : Z) : float := binary_normalize prec emax n 0 false.

Definition is_zero (x : float) : bool :=
  match x with S754_zero _ => true | _ => false end.

(** [x / y] on floats. *)
Definition truediv (x y : float) : result float :=
  if is_zero y then Raise ZeroDivisionError else Ok (SFdiv prec emax x y).

(** [a / b] on ints: [ZeroDivisionError] when the int [b] is zero, else the
    quotient as a float.  Both operands are exact as floats below [2^53],
    which covers every file size met in practice; the quotient is then the
    correctly rounded one. *)
Definition truediv_int (a b : Z) : result float :=
  if b =? 0 then Raise ZeroDivisionError
  else Ok (SFdiv prec emax (of_int a) (of_int b)).

Definition sub (x y : float) : float := SFsub prec emax x y.
Definition mul (x y : float) : float := SFmul prec emax x y.

Definition digit_char (d : Z) : ascii := ascii_of_nat (48 + Z.to_nat d).

(** The [k] low decimal digits of [v], zero-padded on the left. *)
Fixpoint digits (k : nat) (v : Z) : string :=
  match k with
  | O => EmptyString
  | S k' => digits k' (v / 10) +:+ String (digit_char (v mod 10)) EmptyString
  end.

(** The integer nearest to [m * 2^e * 10^k], ties to even: the rounding of
    [format(x, ".kf")], which rounds the exact binary value. *)
Definition round_scaled (m : positive) (e : Z) (k : nat) : Z :=
  let num := Z.pos m * 10 ^ Z.of_nat k in
  if 0 <=? e then num * 2 ^ e
  else
    let den := 2 ^ (- e) in
    let q := num / den in
    let r := num mod den in
    match (2 * r) ?= den with
    | Lt => q
    | Eq => if Z.even q then q else q + 1
    | Gt => q + 1
    end.

Definition sign_str (s : bool) : string := if s then "-" else "".

Definition point (k : nat) : string :=
  match k with O => "" | S _ => "." end.

(** [f"{x:.kf}"]. *)
Definition format_f (k : nat) (x : float) : string :=
  match x with
  | S754_zero s => sign_str s +:+ "0" +:+ point k +:+ digits k 0
  | S754_infinity s => sign_str s +:+ "inf"
  | S754_nan => "nan"
  | S754_finite s m e =>
      let v := round_scaled m e k in
      sign_str s +:+ pretty (v / 10 ^ Z.of_nat k) +:+ point k
        +:+ digits k (v mod 10 ^ Z.of_nat k)
  end.

End PyNum.

(** ** The PyMuPDF interface *)

Record Colorspace : Type := { cs_n : Z; cs_name : string }.

(** One tuple of [page.get_images(full=True)]; the script reads only its
    first component, the xref. *)
Record ImageEntry : Type := {
  img_xref : Z;
  img_smask : Z;
  img_width : Z;
  img_height : Z;
  img_name : string
}.

Definition bytes : Type := list Byte.byte.

(** [fitz.csRGB], the predefined RGB colorspace: three components. *)
Definition csRGB : Colorspace := {| cs_n := 3; cs_name := "DeviceRGB" |}.

(** What the script uses of [fitz], and of a file on disk.  A call that can
    raise returns a [result]; [replace_image] mutates the document and can
    raise after having done so, hence the pair. *)
Class Fitz : Type := {
  File : Type;
  Document : Type;
  Pixmap : Type;
  (** [os.path.getsize] of a file with this content *)
  file_size : File -> Z;
  (** [fitz.open(path)] *)
  fitz_open : File -> result Document;
  (** [len(doc)] *)
  page_count : Document -> nat;
  (** [doc[i].get_images(full=True)] *)
  get_images : Document -> nat -> list ImageEntry;
  (** [fitz.Pixmap(doc, xref)] *)
  Pixmap_of_xref : Document -> Z -> result Pixmap;
  (** [fitz.Pixmap(cs, pix)] *)
  Pixmap_of_cs : Colorspace -> Pixmap -> result Pixmap;
  pix_width : Pixmap -> Z;
  pix_height : Pixmap -> Z;
  (** [pix.colorspace], [None] for a stencil mask *)
  pix_colorspace : Pixmap -> option Colorspace;
  (** [pix.shrink(n)], in place: the pixmap afterwards *)
  shrink : Pixmap -> Z -> Pixmap;
  (** [pix.tobytes("jpg", jpg_quality=q)] *)
  tobytes : Pixmap -> Z -> result bytes;
  (** [doc[i].replace_image(xref, stream=b)]: the document afterwards and
      the exception raised, if any *)
  replace_image : Document -> nat -> Z -> bytes -> Document * option exn;
  (** [doc.save(path, garbage=4, deflate=True, clean=True)], given what
      the path holds before the call: what the path holds afterwards
      ([None]: no file) and the exception raised, if any.  A save that
      raises may already have created or truncated the file; the call is
      taken to touch no other path. *)
  doc_save : Document -> option File -> option File * option exn;
  (** the stream stored under an xref (read by no line of the script; it is
      what the properties about replacement observe) *)
  xref_stream : Document -> Z -> option bytes
}.

(** ** The script's state and its monad *)

Section Script.
Context `{L : Fitz}.

(** Calls into the library, in the order they are made (a ghost log). *)
Inductive event : Type :=
| CallOpen (path : string)
| CallPixmap (xref : Z)
| CallConvert (xref : Z)
| CallShrink (xref : Z) (factor : Z)
| CallTobytes (xref : Z) (pix : Pixmap) (quality : Z)
| CallReplace (page : nat) (xref : Z) (stream : bytes)
| CallSave (path : string)
| CallClose.

Record World : Type := {
  fs : gmap string File;
  stdout : list string;
  calls : list event
}.

Definition M (A : Type) : Type := World -> World * result A.

Definition ret {A} (a : A) : M A := fun w => (w, Ok a).

Definition bind {A B} (m : M A) (k : A -> M B) : M B :=
  fun w =>
    match m w with
    | (w', Ok a) => k a w'
    | (w', Raise e) => (w', Raise e)
    end.

Definition raise {A} (e : exn) : M A := fun w => (w, Raise e).

Definition lift {A} (r : result A) : M A := fun w => (w, r).

(** [try: m  except Exception: h] *)
Definition try_except {A} (m : M A) (h : exn -> M A) : M A :=
  fun w =>
    match m w with
    | (w', Ok a) => (w', Ok a)
    | (w', Raise e) => h e w'
    end.

Definition print (s : string) : M unit :=
  fun w => ({| fs := fs w; stdout := stdout w ++ [s]; calls := calls w |}, Ok tt).

Definition call (c : event) : M unit :=
  fun w => ({| fs := fs w; stdout := stdout w; calls := calls w ++ [c] |}, Ok tt).

End Script.

Notation "'let*' x := m 'in' k" := (bind m (fun x => k))
  (at level 10, x pattern, m at level 100, k at level 200).
Notation "m ;;; k" := (bind m (fun _ => k))
  (at level 100, k at level 200, right associativity).

(** ** [compress_pdf] *)

Definition CR : string := String "013"%char EmptyString.
Definition NL : string := String "010"%char EmptyString.

Section CompressPdf.
Context `{L : Fitz}.

(** Lines 48-51: [fitz.Pixmap(doc, xref)] inside [try]; [None] stands for
    the [except] branch, whose body is [continue]. *)
Definition materialize (doc : Document) (xref : Z) : M (option Pixmap) :=
  try_except
    (call (CallPixmap xref) ;;;
     let* pix := lift (Pixmap_of_xref doc xref) in
     ret (Some pix))
    (fun _ => ret None).

(** Lines 54-55.  [pix.colorspace.n] on a [None] colorspace is an
    [AttributeError]. *)
Definition normalize_colorspace (xref : Z) (pix : Pixmap) : M Pixmap :=
  match pix_colorspace pix with
  | None => raise (AttributeError "'NoneType' object has no attribute 'n'")
  | Some cs =>
      if 3 <? cs_n cs
      then call (CallConvert xref) ;;; lift (Pixmap_of_cs csRGB pix)
      else ret pix
  end.

(** Lines 58-61. *)
Definition downscale (xref : Z) (pix : Pixmap) (max_dimension : Z) : M Pixmap :=
  if max_dimension <? Z.max (pix_width pix) (pix_height pix) then
    let* factor :=
      lift (PyNum.floordiv (Z.max (pix_width pix) (pix_height pix)) max_dimension) in
    if 1 <? factor
    then call (CallShrink xref factor) ;;; ret (shrink pix factor)
    else ret pix
  else ret pix.

(** Line 64. *)
Definition reencode (xref : Z) (pix : Pixmap) (quality : Z) : M bytes :=
  call (CallTobytes xref pix quality) ;;; lift (tobytes pix quality).

(** Lines 66-69: [replace_image] inside [try], the [except] body is
    [pass].  The document is whatever the call left behind. *)
Definition try_replace (doc : Document) (page : nat) (xref : Z)
    (img_bytes : bytes) : M Document :=
  call (CallReplace page xref img_bytes) ;;;
  ret (fst (replace_image doc page xref img_bytes)).

(** Lines 53-64: from the materialized pixmap to the JPEG bytes. *)
Definition recompress (xref : Z) (pix : Pixmap) (quality max_dimension : Z)
  : M bytes :=
  let* pix := normalize_colorspace xref pix in
  let* pix := downscale xref pix max_dimension in
  reencode xref pix quality.

(** The body of [for img in image_list] (lines 43-72), on the two
    variables it changes: the document and [processed_xrefs]. *)
Definition process_image (quality max_dimension : Z) (page : nat)
    (img : ImageEntry) (st : Document * gset Z) : M (Document * gset Z) :=
  let xref := img_xref img in
  if decide (xref ∈ st.2) then ret st
  else
    let* r := materialize st.1 xref in
    match r with
    | None => ret st
    | Some pix =>
        let* img_bytes := recompress xref pix quality max_dimension in
        let* doc := try_replace st.1 page xref img_bytes in
        ret (doc, st.2 ∪ {[xref]})
    end.

(** [for img in image_list] *)
Fixpoint for_images (quality max_dimension : Z) (page : nat)
    (image_list : list ImageEntry) (st : Document * gset Z)
  : M (Document * gset Z) :=
  match image_list with
  | [] => ret st
  | img :: rest =>
      let* st' := process_image quality max_dimension page img st in
      for_images quality max_dimension page rest st'
  end.

(** The text of line 40. *)
Definition progress (i total : nat) : string :=
  "Processing page " +:+ pretty (S i) +:+ "/" +:+ pretty total +:+ "..." +:+ CR.

(** [for i, page in enumerate(doc)] (lines 39-72).  [replace_image] does
    not add or remove pages, so the pages visited are those counted at
    line 37; each page's image list is read from the document as it is when
    the page is reached. *)
Fixpoint for_pages (quality max_dimension : Z) (total_pages : nat)
    (pages : list nat) (st : Document * gset Z) : M (Document * gset Z) :=
  match pages with
  | [] => ret st
  | i :: rest =>
      print (progress i total_pages) ;;;
      let* st' :=
        for_images quality max_dimension i (get_images st.1 i) st in
      for_pages quality max_dimension total_pages rest st'
  end.

(** [os.path.getsize] *)
Definition getsize (path : string) : M Z :=
  fun w =>
    match fs w !! path with
    | Some f => (w, Ok (file_size f))
    | None => (w, Raise (OSError "No such file or directory"))
    end.

(** What the file system is once a path holds [o]. *)
Definition write_file (path : string) (o : option File)
    (files : gmap string File) : gmap string File :=
  match o with
  | Some f => <[path := f]> files
  | None => delete path files
  end.

(** Lines 80-83: [doc.save] is handed the path; the path then holds what
    the library left there, whether the call returned or raised. *)
Definition save (doc : Document) (path : string) : M unit :=
  call (CallSave path) ;;;
  fun w =>
    let r := doc_save doc (fs w !! path) in
    ({| fs := write_file path r.1 (fs w); stdout := stdout w;
        calls := calls w |},
     match r.2 with
     | None => Ok tt
     | Some e => Raise e
     end).

(** Line 84: [doc.close()], reached only when the save returned. *)
Definition close : M unit := call CallClose.

(** [size / 1024 / 1024] *)
Definition mib (size : Z) : result PyNum.float :=
  match PyNum.truediv_int size 1024 with
  | Ok x => PyNum.truediv x (PyNum.of_int 1024)
  | Raise e => Raise e
  end.

(** [(1 - final_size / initial_size) * 100] *)
Definition reduction (initial_size final_size : Z) : result PyNum.float :=
  match PyNum.truediv_int final_size initial_size with
  | Ok x => Ok (PyNum.mul (PyNum.sub (PyNum.of_int 1) x) (PyNum.of_int 100))
  | Raise e => Raise e
  end.

(** The text of line 74. *)
Definition saving_message : string := NL +:+ "Saving compressed PDF..." +:+ NL.

(** Lines 89-92. *)
Definition report_sizes (initial_size final_size : Z) : M unit :=
  let* a := lift (mib initial_size) in
  print ("Original size: " +:+ PyNum.format_f 2 a +:+ " MB" +:+ NL) ;;;
  let* b := lift (mib final_size) in
  print ("Compressed size: " +:+ PyNum.format_f 2 b +:+ " MB" +:+ NL) ;;;
  if 0 <? initial_size then
    let* r := lift (reduction initial_size final_size) in
    print ("Reduction: " +:+ PyNum.format_f 1 r +:+ "%" +:+ NL)
  else ret tt.

Definition compress_pdf (input_path output_path : string)
    (quality max_dimension : Z) : M unit :=
  fun w =>
    match fs w !! input_path with
    | None =>
        print ("Error: File not found: " +:+ input_path +:+ NL) w
    | Some f =>
        (call (CallOpen input_path) ;;;
         let* doc := lift (fitz_open f) in
         let total_pages := page_count doc in
         let* st := for_pages quality max_dimension total_pages
                      (seq 0 total_pages) (doc, ∅) in
         print saving_message ;;;
         save st.1 output_path ;;;
         close ;;;
         let* initial_size := getsize input_path in
         let* final_size := getsize output_path in
         report_sizes initial_size final_size) w
    end.

(** ** The command line (lines 94-110) *)

(** What [parser.parse_args()] returns. *)
Record Args : Type := {
  arg_input : string;
  arg_output : option string;
  arg_quality : Z;
  arg_max_dim : Z
}.

(** Lines 106-108: [if not output_pdf] holds for [None] and for the empty
    string. *)
Definition output_path_of (args : Args) : string :=
  let default :=
    let '(name, ext) := OsPath.splitext (arg_input args) in
    name +:+ "_compressed" +:+ ext in
  match arg_output args with
  | None => default
  | Some o => if String.eqb o "" then default else o
  end.

Definition main (args : Args) : M unit :=
  compress_pdf (arg_input args) (output_path_of args)
    (arg_quality args) (arg_max_dim args).

(** The process: lines 5-17 exit with status 1 when [fitz] is missing or is
    not PyMuPDF; an exception that reaches the top level ends the process
    with status 1; otherwise the status is 0. *)
Definition import_error_message : list string :=
  [ "Error: The 'fitz' module is not from PyMuPDF." +:+ NL;
    "It seems you might have installed the wrong 'fitz' package." +:+ NL;
    "Please run the following commands to fix it:" +:+ NL;
    "  pip uninstall fitz" +:+ NL;
    "  pip install pymupdf" +:+ NL ].

Definition script (fitz_is_pymupdf : bool) (args : Args) (w : World)
  : World * Z :=
  if fitz_is_pymupdf then
    match main args w with
    | (w', Ok _) => (w', 0)
    | (w', Raise _) => (w', 1)
    end
  else
    ({| fs := fs w; stdout := stdout w ++ import_error_message;
        calls := calls w |}, 1).

(** An exception leaves [main]: the process ends with status 1, and the
    file system is as it was. *)
Definition aborts_with (args : Args) (w : World) (e : exn) : Prop :=
  (main args w).2 = Raise e
  /\ (script true args w).2 = 1
  /\ fs (script true args w).1 = fs w.

(** ** Reading the call log *)

Definition add_calls (w : World) (evs : list event) : World :=
  {| fs := fs w; stdout := stdout w; calls := calls w ++ evs |}.

Definition add_stdout (w : World) (out : list string) : World :=
  {| fs := fs w; stdout := stdout w ++ out; calls := calls w |}.

Definition is_pixmap (x : Z) (e : event) : bool :=
  match e with CallPixmap y => x =? y | _ => false end.

Definition is_tobytes (x : Z) (e : event) : bool :=
  match e with CallTobytes y _ _ => x =? y | _ => false end.

Definition is_replace (x : Z) (e : event) : bool :=
  match e with CallReplace _ y _ => x =? y | _ => false end.

Definition is_save (e : event) : bool :=
  match e with CallSave _ => true | _ => false end.

Definition count (f : event -> bool) (l : list event) : nat :=
  length (List.filter f l).

(** What [recompress] adds to the log: no replacement, nothing about
    another xref, and exactly one [tobytes] call when it returns. *)
Definition recompress_log (x : Z) (r : result bytes) (evs : list event)
  : Prop :=
  (forall y, count (is_replace y) evs = 0%nat)
  /\ count is_save evs = 0%nat
  /\ (forall y, count (is_pixmap y) evs = 0%nat)
  /\ (forall y, y <> x -> count (is_tobytes y) evs = 0%nat)
  /\ (count (is_tobytes x) evs <= 1)%nat
  /\ (is_ok r = true -> count (is_tobytes x) evs = 1%nat).

(** The log invariant of the image loop: an xref of the processed-set was
    re-encoded once and replaced once, any other xref never. *)
Definition log_inv (P : gset Z) (evs : list event) : Prop :=
  forall x,
    (x ∈ P -> count (is_tobytes x) evs = 1%nat /\ count (is_replace x) evs = 1%nat)
    /\ (x ∉ P -> count (is_tobytes x) evs = 0%nat /\ count (is_replace x) evs = 0%nat).

Definition at_most_once (evs : list event) : Prop :=
  forall x,
    (count (is_tobytes x) evs <= 1)%nat /\ (count (is_replace x) evs <= 1)%nat.

(** The values and the lines of the size report, as plain functions. *)
Definition mib_value (size : Z) : PyNum.float :=
  SFdiv PyNum.prec PyNum.emax
    (SFdiv PyNum.prec PyNum.emax (PyNum.of_int size) (PyNum.of_int 1024))
    (PyNum.of_int 1024).

Definition reduction_value (initial_size final_size : Z) : PyNum.float :=
  PyNum.mul
    (PyNum.sub (PyNum.of_int 1)
       (SFdiv PyNum.prec PyNum.emax (PyNum.of_int final_size)
          (PyNum.of_int initial_size)))
    (PyNum.of_int 100).

Definition report_lines (initial_size final_size : Z) : list string :=
  [ "Original size: " +:+ PyNum.format_f 2 (mib_value initial_size)
      +:+ " MB" +:+ NL;
    "Compressed size: " +:+ PyNum.format_f 2 (mib_value final_size)
      +:+ " MB" +:+ NL ]
  ++ (if 0 <? initial_size
      then [ "Reduction: "
               +:+ PyNum.format_f 1 (reduction_value initial_size final_size)
               +:+ "%" +:+ NL ]
      else []).

(** Whether some image of a list, or of some page, materializes from a
    document. *)
Definition any_readable (doc : Document) (imgs : list ImageEntry) : bool :=
  existsb (fun img => is_ok (Pixmap_of_xref doc (img_xref img))) imgs.

Definition any_page_readable (doc : Document) (pages : list nat) : bool :=
  existsb (fun i => any_readable doc (get_images doc i)) pages.

(** The first image, in listing order and then in page order, that
    materializes from a document: its xref and its pixmap. *)
Fixpoint first_readable_image (doc : Document) (imgs : list ImageEntry)
  : option (Z * Pixmap) :=
  match imgs with
  | [] => None
  | img :: rest =>
      match Pixmap_of_xref doc (img_xref img) with
      | Ok pix => Some (img_xref img, pix)
      | Raise _ => first_readable_image doc rest
      end
  end.

Fixpoint first_readable (doc : Document) (pages : list nat)
  : option (Z * Pixmap) :=
  match pages with
  | [] => None
  | i :: rest =>
      match first_readable_image doc (get_images doc i) with
      | Some r => Some r
      | None => first_readable doc rest
      end
  end.

End CompressPdf.

(** ** An executable model of the library

    Small documents on which the script can be run.  Where the script
    depends on what a PyMuPDF call does, the model follows the library's
    documentation: [Pixmap.shrink(n)] divides width and height by [2**n]
    (rounding up) and ignores [n < 1]; [Pixmap(cs, pix)] gives a pixmap in
    colorspace [cs] with the same dimensions; the JPEG writer refuses a
    pixmap with an alpha channel; a failed [replace_image] leaves the
    document as it was; [save] writes the whole file and returns.  Two
    variants of the library differ from it in one call each: in
    [fitz_late_failure] a replacement that fails does so after the new
    stream was stored, in [fitz_disk_full] the save truncates the file and
    raises. *)

Module Model.

Record image : Type := {
  im_width : Z;
  im_height : Z;
  im_cs : option Colorspace;
  im_alpha : bool;
  (** whether the stream decodes to pixels *)
  im_readable : bool;
  (** whether the object accepts an in-place replacement *)
  im_replaceable : bool;
  im_stream : bytes
}.

Record document : Type := {
  d_pages : list (list ImageEntry);
  d_images : gmap Z image
}.

Record pixmap : Type := {
  p_width : Z;
  p_height : Z;
  p_cs : option Colorspace;
  p_alpha : bool
}.

Record file : Type := {
  f_size : Z;
  (** the document the bytes parse to, if they are a PDF *)
  f_doc : option document
}.

Definition m_open (f : file) : result document :=
  match f_doc f with
  | Some d => Ok d
  | None => Raise (LibraryError "FileDataError: cannot open broken document")
  end.

Definition m_pixmap (d : document) (xref : Z) : result pixmap :=
  match d_images d !! xref with
  | Some im =>
      if im_readable im
      then Ok {| p_width := im_width im; p_height := im_height im;
                 p_cs := im_cs im; p_alpha := im_alpha im |}
      else Raise (LibraryError "RuntimeError: cannot decode image stream")
  | None => Raise (LibraryError "ValueError: bad xref")
  end.

Definition m_convert (cs : Colorspace) (p : pixmap) : result pixmap :=
  Ok {| p_width := p_width p; p_height := p_height p;
        p_cs := Some cs; p_alpha := p_alpha p |}.

Definition m_shrink (p : pixmap) (n : Z) : pixmap :=
  if n <? 1 then p
  else {| p_width := (p_width p + 2 ^ n - 1) / 2 ^ n;
          p_height := (p_height p + 2 ^ n - 1) / 2 ^ n;
          p_cs := p_cs p; p_alpha := p_alpha p |}.

Definition byte_of_Z (z : Z) : Byte.byte :=
  default Byte.x00 (Byte.of_N (Z.to_N (z mod 256))).

(** A stand-in for the JPEG stream: the SOI marker, then the quality and
    the low bytes of the dimensions. *)
Definition m_tobytes (p : pixmap) (quality : Z) : result bytes :=
  if p_alpha p
  then Raise (LibraryError "pixmap may not have alpha channel to write as JPEG")
  else Ok [Byte.xff; Byte.xd8; byte_of_Z quality;
           byte_of_Z (p_width p); byte_of_Z (p_height p)].

Definition m_replace (d : document) (page : nat) (xref : Z) (b : bytes)
  : document * option exn :=
  match d_images d !! xref with
  | Some im =>
      if im_replaceable im
      then ({| d_pages := d_pages d;
               d_images := <[xref := {| im_width := im_width im;
                                        im_height := im_height im;
                                        im_cs := im_cs im;
                                        im_alpha := im_alpha im;
                                        im_readable := im_readable im;
                                        im_replaceable := true;
                                        im_stream := b |}]> (d_images d) |},
            None)
      else (d, Some (LibraryError "ValueError: unsupported image for replacement"))
  | None => (d, Some (LibraryError "ValueError: xref not an image"))
  end.


Definition m_save (d : document) (old : option file)
  : option file * option exn :=
  (Some {| f_size :=
             100 + map_fold
                     (fun _ im acc => Z.of_nat (length (im_stream im)) + acc)
                     0 (d_images d);
           f_doc := Some d |},
   None).

(** A save on a full disk: the file is created empty, then the write
    fails. *)
Definition m_save_disk_full (d : document) (old : option file)
  : option file * option exn :=
  (Some {| f_size := 0; f_doc := None |},
   Some (OSError "No space left on device")).

#[global] Instance fitz : Fitz := {
  File := file;
  Document := document;
  Pixmap := pixmap;
  file_size := f_size;
  fitz_open := m_open;
  page_count := fun d => length (d_pages d);
  get_images := fun d i => nth i (d_pages d) [];
  Pixmap_of_xref := m_pixmap;
  Pixmap_of_cs := m_convert;
  pix_width := p_width;
  pix_height := p_height;
  pix_colorspace := p_cs;
  shrink := m_shrink;
  tobytes := m_tobytes;
  replace_image := m_replace;
  doc_save := m_save;
  xref_stream := fun d x => im_stream <$> (d_images d !! x)
}.


Definition fitz_disk_full : Fitz := {|
  File := file;
  Document := document;
  Pixmap := pixmap;
  file_size := f_size;
  fitz_open := m_open;
  page_count := fun d => length (d_pages d);
  get_images := fun d i => nth i (d_pages d) [];
  Pixmap_of_xref := m_pixmap;
  Pixmap_of_cs := m_convert;
  pix_width := p_width;
  pix_height := p_height;
  pix_colorspace := p_cs;
  shrink := m_shrink;
  tobytes := m_tobytes;
  replace_image := m_replace;
  doc_save := m_save_disk_full;
  xref_stream := fun d x => im_stream <$> (d_images d !! x)
|}.

(** *** Sample documents *)

Definition entry (xref w h : Z) : ImageEntry :=
  {| img_xref := xref; img_smask := 0; img_width := w; img_height := h;
     img_name := "Im" +:+ pretty xref |}.

Definition raw (n : nat) : bytes := repeat Byte.x2a n.

Definition rgb (w h : Z) : image :=
  {| im_width := w; im_height := h; im_cs := Some csRGB; im_alpha := false;
     im_readable := true; im_replaceable := true; im_stream := raw 64 |}.

Definition csCMYK : Colorspace := {| cs_n := 4; cs_name := "DeviceCMYK" |}.
Definition csGRAY : Colorspace := {| cs_n := 1; cs_name := "DeviceGray" |}.

Definition cmyk (w h : Z) : image :=
  {| im_width := w; im_height := h; im_cs := Some csCMYK; im_alpha := false;
     im_readable := true; im_replaceable := true; im_stream := raw 64 |}.

Definition corrupt (w h : Z) : image :=
  {| im_width := w; im_height := h; im_cs := Some csRGB; im_alpha := false;
     im_readable := false; im_replaceable := true; im_stream := raw 16 |}.


Definition fixed (w h : Z) : image :=
  {| im_width := w; im_height := h; im_cs := Some csRGB; im_alpha := false;
     im_readable := true; im_replaceable := false; im_stream := raw 64 |}.

(** A stencil mask: it materializes, and its pixmap has no colorspace. *)
Definition mask (w h : Z) : image :=
  {| im_width := w; im_height := h; im_cs := None; im_alpha := false;
     im_readable := true; im_replaceable := true; im_stream := raw 8 |}.

Definition world_of (files : list (string * file)) : World :=
  {| fs := list_to_map files; stdout := []; calls := [] |}.


Definition world_disk_full (files : list (string * file))
  : @World fitz_disk_full :=
  @Build_World fitz_disk_full (list_to_map files) [] [].

Definition pdf (size : Z) (d : document) : file :=
  {| f_size := size; f_doc := Some d |}.

(** One page, one 4000x3000 RGB image. *)
Definition doc_large : document :=
  {| d_pages := [[entry 7 4000 3000]];
     d_images := {[ 7 := rgb 4000 3000 ]} |}.

(** Two pages sharing image 5; page 2 also has image 6. *)
Definition doc_shared : document :=
  {| d_pages := [[entry 5 800 600]; [entry 5 800 600; entry 6 100 100]];
     d_images := {[ 5 := rgb 800 600; 6 := cmyk 100 100 ]} |}.

(** Two pages sharing image 5, whose stream does not decode. *)
Definition doc_shared_corrupt : document :=
  {| d_pages := [[entry 5 800 600]; [entry 5 800 600]];
     d_images := {[ 5 := corrupt 800 600 ]} |}.

(** An unreadable image between two valid ones. *)
Definition doc_one_corrupt : document :=
  {| d_pages := [[entry 3 640 480; entry 4 640 480; entry 5 320 200]];
     d_images := {[ 3 := rgb 640 480; 4 := corrupt 640 480;
                    5 := rgb 320 200 ]} |}.


(** An image that cannot be replaced in place, followed by a valid one. *)
Definition doc_fixed : document :=
  {| d_pages := [[entry 3 640 480; entry 4 640 480]];
     d_images := {[ 3 := fixed 640 480; 4 := rgb 640 480 ]} |}.

(** A stencil mask listed before a 4000x3000 RGB image. *)
Definition doc_mask : document :=
  {| d_pages := [[entry 3 64 64; entry 4 4000 3000]];
     d_images := {[ 3 := mask 64 64; 4 := rgb 4000 3000 ]} |}.


End Model.

(** ** The shape of the call log *)

Section LogShapes.
Context `{L : Fitz}.

(** The calls of lines 53-61 for one image: a conversion or none, then a
    shrink or none; a shrink factor is always above 1. *)
Inductive prepare_log (x : Z) : list event -> Prop :=
| prepare_none : prepare_log x []
| prepare_convert : prepare_log x [CallConvert x]
| prepare_shrink (f : Z) : 1 < f -> prepare_log x [CallShrink x f]
| prepare_both (f : Z) :
    1 < f -> prepare_log x [CallConvert x; CallShrink x f].

(** The calls of one iteration of the image loop on xref [x]: none (the
    xref was processed already); the materialization alone or followed by
    the preparation (the iteration stopped there); up to a [tobytes] that
    raised; or up to the replacement, which receives the bytes [tobytes]
    returned. *)
Inductive iteration_log (q : Z) (page : nat) (x : Z) : list event -> Prop :=
| iteration_skip : iteration_log q page x []
| iteration_stopped (pre : list event) :
    prepare_log x pre -> iteration_log q page x (CallPixmap x :: pre)
| iteration_encode_raised (pre : list event) (buf : Pixmap) :
    prepare_log x pre ->
    is_ok (tobytes buf q) = false ->
    iteration_log q page x (CallPixmap x :: pre ++ [CallTobytes x buf q])
| iteration_replaced (pre : list event) (buf : Pixmap) (b : bytes) :
    prepare_log x pre ->
    tobytes buf q = Ok b ->
    iteration_log q page x
      (CallPixmap x :: pre ++ [CallTobytes x buf q; CallReplace page x b]).

(** The calls of the loops: iterations one after the other. *)
Inductive loop_log (q : Z) : list event -> Prop :=
| loop_done : loop_log q []
| loop_step (page : nat) (x : Z) (evs rest : list event) :
    iteration_log q page x evs ->
    loop_log q rest ->
    loop_log q (evs ++ rest).



(** A [tobytes] call carries quality [q]; any other call passes. *)
Definition tobytes_quality (q : Z) (e : event) : bool :=
  match e with CallTobytes _ _ q' => q' =? q | _ => true end.

(** A [shrink] call has a factor of at least 2; any other call passes. *)
Definition shrink_factor_ok (e : event) : bool :=
  match e with CallShrink _ f => 2 <=? f | _ => true end.

End LogShapes.

(** * Properties *)

(** ** Sanity checks of the Python primitives *)

Example splitext_pdf : OsPath.splitext "dir/a.pdf" = ("dir/a", ".pdf").
Proof. reflexivity. Qed.

Example splitext_dotfile : OsPath.splitext "d.x/.bashrc" = ("d.x/.bashrc", "").
Proof. reflexivity. Qed.

Example splitext_double : OsPath.splitext "a.tar.gz" = ("a.tar", ".gz").
Proof. reflexivity. Qed.

Example splitext_dots : OsPath.splitext "x/..a.b" = ("x/..a", ".b").
Proof. reflexivity. Qed.

Example format_two_places :
  PyNum.format_f 2 (SFdiv 53 1024 (PyNum.of_int 1) (PyNum.of_int 3)) = "0.33".
Proof. vm_compute. reflexivity. Qed.

Example format_half_even :
  PyNum.format_f 1 (SFdiv 53 1024 (PyNum.of_int 1) (PyNum.of_int 4)) = "0.2"
  /\ PyNum.format_f 1 (SFdiv 53 1024 (PyNum.of_int 3) (PyNum.of_int 4)) = "0.8"
  /\ PyNum.format_f 2 (SFdiv 53 1024 (PyNum.of_int 2675) (PyNum.of_int 1000)) = "2.67"
  /\ PyNum.format_f 1 (PyNum.sub (PyNum.of_int 1) (PyNum.of_int 2)) = "-1.0".
Proof. vm_compute. repeat split; reflexivity. Qed.

(** ** One iteration of the image loop, step by step *)

Section Steps.
Context `{L : Fitz}.

Lemma add_calls_nil (w : World) : add_calls w [] = w.
Proof. destruct w; unfold add_calls; simpl. by rewrite app_nil_r. Qed.

Lemma add_calls_app (w : World) (a b : list event) :
  add_calls (add_calls w a) b = add_calls w (a ++ b).
Proof. unfold add_calls; simpl. by rewrite app_assoc. Qed.

Lemma count_app (f : event -> bool) (a b : list event) :
  count f (a ++ b) = (count f a + count f b)%nat.
Proof. unfold count. by rewrite List.filter_app, length_app. Qed.

Lemma materialize_run (doc : Document) (x : Z) (w : World) :
  materialize doc x w =
  (add_calls w [CallPixmap x],
   Ok (match Pixmap_of_xref doc x with Ok p => Some p | Raise _ => None end)).
Proof.
  unfold materialize, try_except, bind, call, lift, ret, add_calls; simpl.
  destruct (Pixmap_of_xref doc x); reflexivity.
Qed.

Lemma normalize_colorspace_run (x : Z) (pix : Pixmap) (w : World) :
  normalize_colorspace x pix w =
  match pix_colorspace pix with
  | None => (w, Raise (AttributeError "'NoneType' object has no attribute 'n'"))
  | Some cs =>
      if 3 <? cs_n cs
      then (add_calls w [CallConvert x], Pixmap_of_cs csRGB pix)
      else (w, Ok pix)
  end.
Proof.
  unfold normalize_colorspace.
  destruct (pix_colorspace pix) as [cs|]; [|reflexivity].
  destruct (3 <? cs_n cs); reflexivity.
Qed.

Lemma downscale_run (x : Z) (pix : Pixmap) (m : Z) (w : World) :
  downscale x pix m w =
  let d := Z.max (pix_width pix) (pix_height pix) in
  if m <? d then
    if m =? 0 then (w, Raise ZeroDivisionError)
    else if 1 <? d / m
         then (add_calls w [CallShrink x (d / m)], Ok (shrink pix (d / m)))
         else (w, Ok pix)
  else (w, Ok pix).
Proof.
  unfold downscale; cbv zeta.
  destruct (m <? Z.max (pix_width pix) (pix_height pix)); [|reflexivity].
  unfold bind, lift, PyNum.floordiv.
  destruct (m =? 0); [reflexivity|].
  destruct (1 <? Z.max (pix_width pix) (pix_height pix) / m); reflexivity.
Qed.

Lemma reencode_run (x : Z) (pix : Pixmap) (q : Z) (w : World) :
  reencode x pix q w = (add_calls w [CallTobytes x pix q], tobytes pix q).
Proof. reflexivity. Qed.

Lemma try_replace_run (doc : Document) (page : nat) (x : Z) (b : bytes)
    (w : World) :
  try_replace doc page x b w =
  (add_calls w [CallReplace page x b], Ok (replace_image doc page x b).1).
Proof. reflexivity. Qed.

Lemma recompress_calls (x : Z) (pix : Pixmap) (q m : Z) (w w' : World)
    (r : result bytes) :
  recompress x pix q m w = (w', r) ->
  exists evs, w' = add_calls w evs /\ recompress_log x r evs.
Proof.
  assert (Hlog : forall r0 evs,
    (evs = [] \/ evs = [CallConvert x] \/
     (exists f, evs = [CallShrink x f]) \/
     (exists f, evs = [CallConvert x; CallShrink x f])) ->
    (recompress_log x (Raise r0) evs) /\
    (forall p r1, recompress_log x r1 (evs ++ [CallTobytes x p q]))).
  { intros r0 evs Hevs. unfold recompress_log.
    destruct Hevs as [-> | [-> | [[f ->] | [f ->]]]];
      repeat (intros; match goal with |- _ /\ _ => split end); intros;
      try discriminate; unfold count; simpl; rewrite ?Z.eqb_refl;
      repeat match goal with
             | H : ?y <> x |- _ => rewrite (proj2 (Z.eqb_neq y x) H)
             end; simpl; try reflexivity; try lia. }
  unfold recompress, bind.
  rewrite normalize_colorspace_run.
  destruct (pix_colorspace pix) as [cs|].
  2:{ intros [= <- <-]. exists []. rewrite add_calls_nil.
      split; [reflexivity|]. apply (Hlog _ []); auto. }
  destruct (3 <? cs_n cs).
  - destruct (Pixmap_of_cs csRGB pix) as [p1|e].
    2:{ intros [= <- <-]. eexists; split; [reflexivity|].
        apply (Hlog _ [CallConvert x]); auto. }
    rewrite downscale_run; cbv zeta.
    destruct (m <? _).
    2:{ rewrite reencode_run, add_calls_app. intros [= <- <-].
        eexists; split; [reflexivity|].
        apply (Hlog ZeroDivisionError [CallConvert x]); auto. }
    destruct (m =? 0).
    { intros [= <- <-]. eexists; split; [reflexivity|].
      apply (Hlog _ [CallConvert x]); auto. }
    destruct (1 <? _).
    + rewrite reencode_run, !add_calls_app. intros [= <- <-].
      eexists; split; [reflexivity|].
      apply (Hlog ZeroDivisionError [CallConvert x; CallShrink x _]); eauto.
    + rewrite reencode_run, add_calls_app. intros [= <- <-].
      eexists; split; [reflexivity|].
      apply (Hlog ZeroDivisionError [CallConvert x]); auto.
  - rewrite downscale_run; cbv zeta.
    destruct (m <? _).
    2:{ rewrite reencode_run. intros [= <- <-].
        eexists; split; [reflexivity|].
        apply (Hlog ZeroDivisionError []); auto. }
    destruct (m =? 0).
    { intros [= <- <-]. exists []. rewrite add_calls_nil.
      split; [reflexivity|]. apply (Hlog _ []); auto. }
    destruct (1 <? _).
    + rewrite reencode_run, !add_calls_app. intros [= <- <-].
      eexists; split; [reflexivity|].
      apply (Hlog ZeroDivisionError [CallShrink x _]); eauto.
    + rewrite reencode_run. intros [= <- <-].
      eexists; split; [reflexivity|].
      apply (Hlog ZeroDivisionError []); auto.
Qed.

End Steps.

(** ** The loop body and the loops *)

Section Loops.
Context `{L : Fitz}.
Implicit Types (doc : Document) (P : gset Z) (w : World) (img : ImageEntry).
Implicit Types (base evs : list event) (q m : Z) (page : nat).

Lemma process_image_skip q m page img doc P w :
  img_xref img ∈ P ->
  process_image q m page img (doc, P) w = (w, Ok (doc, P)).
Proof.
  intros Hin. unfold process_image; simpl.
  destruct (decide (img_xref img ∈ P)); [reflexivity | contradiction].
Qed.

Lemma process_image_unreadable q m page img doc P w e :
  img_xref img ∉ P ->
  Pixmap_of_xref doc (img_xref img) = Raise e ->
  process_image q m page img (doc, P) w
  = (add_calls w [CallPixmap (img_xref img)], Ok (doc, P)).
Proof.
  intros Hnot Hpix. unfold process_image; simpl.
  destruct (decide (img_xref img ∈ P)); [contradiction|].
  unfold bind. rewrite materialize_run, Hpix. reflexivity.
Qed.

Lemma process_image_readable q m page img doc P w pix w2 r :
  img_xref img ∉ P ->
  Pixmap_of_xref doc (img_xref img) = Ok pix ->
  recompress (img_xref img) pix q m (add_calls w [CallPixmap (img_xref img)])
  = (w2, r) ->
  process_image q m page img (doc, P) w
  = match r with
    | Ok b =>
        (add_calls w2 [CallReplace page (img_xref img) b],
         Ok ((replace_image doc page (img_xref img) b).1, P ∪ {[img_xref img]}))
    | Raise e => (w2, Raise e)
    end.
Proof.
  intros Hnot Hpix Hrec. unfold process_image; simpl.
  destruct (decide (img_xref img ∈ P)); [contradiction|].
  unfold bind at 1. rewrite materialize_run, Hpix.
  unfold bind at 1. rewrite Hrec.
  destruct r; reflexivity.
Qed.

Lemma log_inv_at_most_once P evs : log_inv P evs -> at_most_once evs.
Proof.
  intros H x. destruct (H x) as [Hin Hout].
  destruct (decide (x ∈ P)) as [Hx|Hx].
  - destruct (Hin Hx) as [-> ->]. lia.
  - destruct (Hout Hx) as [-> ->]. lia.
Qed.

Lemma count_pixmap_only f x :
  (forall y, f (CallPixmap y) = false) -> count f [CallPixmap x] = 0%nat.
Proof. intros H. unfold count; simpl. by rewrite H. Qed.

(** One iteration keeps the invariant, and an iteration that raises still
    leaves every xref re-encoded and replaced at most once. *)
Lemma process_image_inv q m page img doc P w base evs0 :
  calls w = base ++ evs0 ->
  log_inv P evs0 ->
  exists evs,
    calls (process_image q m page img (doc, P) w).1 = base ++ evs
    /\ match (process_image q m page img (doc, P) w).2 with
       | Ok st' => log_inv st'.2 evs
       | Raise _ => at_most_once evs
       end.
Proof.
  intros Hcalls Hinv.
  destruct (decide (img_xref img ∈ P)) as [Hin|Hnot].
  { rewrite process_image_skip by done. exists evs0. simpl. auto. }
  destruct (Pixmap_of_xref doc (img_xref img)) as [pix|e] eqn:Hpix.
  2:{ rewrite (process_image_unreadable _ _ _ _ _ _ _ e) by done.
      exists (evs0 ++ [CallPixmap (img_xref img)]). simpl.
      split; [by rewrite Hcalls, app_assoc|].
      intros x. rewrite !count_app, !count_pixmap_only by done.
      rewrite !Nat.add_0_r. apply Hinv. }
  destruct (recompress (img_xref img) pix q m
              (add_calls w [CallPixmap (img_xref img)])) as [w2 r] eqn:Hrec.
  rewrite (process_image_readable _ _ _ _ _ _ _ pix w2 r) by done.
  apply recompress_calls in Hrec as (evs & -> & Hrep & _ & _ & Hother & Hle & Hok).
  set (x0 := img_xref img) in *.
  destruct r as [b|e]; simpl.
  - exists (evs0 ++ [CallPixmap x0] ++ evs ++ [CallReplace page x0 b]).
    split; [rewrite Hcalls; by rewrite <- !app_assoc|].
    intros x. rewrite !count_app. rewrite !count_pixmap_only by done.
    rewrite Hrep. destruct (Hinv x) as [Hin Hout].
    assert (Ht : count (is_tobytes x) [CallReplace page x0 b] = 0%nat)
      by reflexivity.
    assert (Hr : count (is_replace x) [CallReplace page x0 b]
                 = if x =? x0 then 1%nat else 0%nat)
      by (unfold count; simpl; destruct (x =? x0); reflexivity).
    rewrite Ht, Hr.
    destruct (decide (x = x0)) as [->|Hne].
    + rewrite Z.eqb_refl, (Hok eq_refl).
      destruct (Hout Hnot) as [-> ->].
      split; [intros _; lia | intros Hx; exfalso; apply Hx].
      apply elem_of_union; right. by apply elem_of_singleton.
    + rewrite (proj2 (Z.eqb_neq x x0) Hne), (Hother x Hne).
      split; intros Hx.
      * assert (Hx' : x ∈ P).
        { apply elem_of_union in Hx as [Hx|Hx]; [done|].
          apply elem_of_singleton in Hx. contradiction. }
        destruct (Hin Hx') as [-> ->]. lia.
      * assert (Hx' : x ∉ P).
        { intros HP. apply Hx. apply elem_of_union; by left. }
        destruct (Hout Hx') as [-> ->]. lia.
  - exists (evs0 ++ [CallPixmap x0] ++ evs).
    split; [rewrite Hcalls; by rewrite <- !app_assoc|].
    intros x. rewrite !count_app. rewrite !count_pixmap_only by done.
    rewrite Hrep. destruct (Hinv x) as [Hin Hout].
    destruct (decide (x = x0)) as [->|Hne].
    + destruct (Hout Hnot) as [-> ->]. lia.
    + rewrite (Hother x Hne).
      destruct (decide (x ∈ P)) as [Hx|Hx];
        [destruct (Hin Hx) as [-> ->] | destruct (Hout Hx) as [-> ->]]; lia.
Qed.

Lemma for_images_inv q m page imgs : forall doc P w base evs0,
  calls w = base ++ evs0 ->
  log_inv P evs0 ->
  exists evs,
    calls (for_images q m page imgs (doc, P) w).1 = base ++ evs
    /\ match (for_images q m page imgs (doc, P) w).2 with
       | Ok st' => log_inv st'.2 evs
       | Raise _ => at_most_once evs
       end.
Proof.
  induction imgs as [|img rest IH]; intros doc P w base evs0 Hc Hinv.
  { exists evs0. simpl. auto. }
  simpl. unfold bind.
  destruct (process_image_inv q m page img doc P w base evs0 Hc Hinv)
    as (evs1 & Hc1 & H1).
  destruct (process_image q m page img (doc, P) w) as [w1 [[d1 P1]|e]];
    simpl in *.
  - apply (IH d1 P1 w1 base evs1); assumption.
  - exists evs1. auto.
Qed.

Lemma for_images_cons q m page img rest (st : Document * gset Z) w :
  for_images q m page (img :: rest) st w
  = match process_image q m page img st w with
    | (w1, Ok st') => for_images q m page rest st' w1
    | (w1, Raise e) => (w1, Raise e)
    end.
Proof. reflexivity. Qed.

Lemma for_pages_cons q m total i rest (st : Document * gset Z) w :
  for_pages q m total (i :: rest) st w
  = match for_images q m i (get_images st.1 i) st
            (add_stdout w [progress i total]) with
    | (w1, Ok st') => for_pages q m total rest st' w1
    | (w1, Raise e) => (w1, Raise e)
    end.
Proof. reflexivity. Qed.

Lemma for_pages_inv q m total pages : forall doc P w base evs0,
  calls w = base ++ evs0 ->
  log_inv P evs0 ->
  exists evs,
    calls (for_pages q m total pages (doc, P) w).1 = base ++ evs
    /\ match (for_pages q m total pages (doc, P) w).2 with
       | Ok st' => log_inv st'.2 evs
       | Raise _ => at_most_once evs
       end.
Proof.
  induction pages as [|i rest IH]; intros doc P w base evs0 Hc Hinv.
  { exists evs0. simpl. auto. }
  rewrite for_pages_cons.
  destruct (for_images_inv q m i (get_images (doc, P).1 i) doc P
              (add_stdout w [progress i total]) base evs0 Hc Hinv)
    as (evs1 & Hc1 & H1).
  destruct (for_images q m i (get_images (doc, P).1 i) (doc, P)
              (add_stdout w [progress i total])) as [w1 [[d1 P1]|e]].
  - apply (IH d1 P1 w1 base evs1); assumption.
  - exists evs1. auto.
Qed.

End Loops.

(** ** The whole run *)

Section Run.
Context `{L : Fitz}.
Implicit Types (doc : Document) (P : gset Z) (w : World) (img : ImageEntry).
Implicit Types (base evs : list event) (q m : Z) (page : nat).

Lemma add_stdout_calls w out evs :
  add_calls (add_stdout w out) evs = add_stdout (add_calls w evs) out.
Proof. reflexivity. Qed.

(** The image loop only appends to the call log. *)
Lemma process_image_world q m page img (st : Document * gset Z) w :
  exists evs, (process_image q m page img st w).1 = add_calls w evs.
Proof.
  destruct st as [doc P].
  destruct (decide (img_xref img ∈ P)) as [Hin|Hnot].
  { rewrite process_image_skip by done. exists []. by rewrite add_calls_nil. }
  destruct (Pixmap_of_xref doc (img_xref img)) as [pix|e] eqn:Hpix.
  2:{ rewrite (process_image_unreadable _ _ _ _ _ _ _ e) by done. eauto. }
  destruct (recompress (img_xref img) pix q m
              (add_calls w [CallPixmap (img_xref img)])) as [w2 r] eqn:Hrec.
  rewrite (process_image_readable _ _ _ _ _ _ _ pix w2 r) by done.
  apply recompress_calls in Hrec as (evs & -> & _).
  destruct r; simpl; rewrite ?add_calls_app; eauto.
Qed.

Lemma for_images_world q m page imgs : forall (st : Document * gset Z) w,
  exists evs, (for_images q m page imgs st w).1 = add_calls w evs.
Proof.
  induction imgs as [|img rest IH]; intros st w.
  { exists []. by rewrite add_calls_nil. }
  rewrite for_images_cons.
  destruct (process_image_world q m page img st w) as (e1 & H1).
  destruct (process_image q m page img st w) as [w1 [st'|e]]; simpl in H1;
    subst w1; [|eauto].
  destruct (IH st' (add_calls w e1)) as (e2 & H2).
  rewrite H2, add_calls_app. eauto.
Qed.

Lemma for_pages_fs q m total pages : forall (st : Document * gset Z) w,
  fs (for_pages q m total pages st w).1 = fs w.
Proof.
  induction pages as [|i rest IH]; intros st w; [reflexivity|].
  rewrite for_pages_cons.
  destruct (for_images_world q m i (get_images st.1 i) st
              (add_stdout w [progress i total])) as (e1 & H1).
  destruct (for_images q m i (get_images st.1 i) st
              (add_stdout w [progress i total])) as [w1 [st'|e]];
    simpl in H1; subst w1; [|reflexivity].
  by rewrite IH.
Qed.

Lemma mib_ok (size : Z) : mib size = Ok (mib_value size).
Proof. reflexivity. Qed.

Lemma reduction_ok (initial_size final_size : Z) :
  initial_size <> 0 ->
  reduction initial_size final_size
  = Ok (reduction_value initial_size final_size).
Proof.
  intros H. unfold reduction, PyNum.truediv_int.
  by rewrite (proj2 (Z.eqb_neq _ _) H).
Qed.

(** The report never raises; it prints two lines, and the third only for a
    positive initial size. *)
Lemma report_sizes_run (initial_size final_size : Z) w :
  report_sizes initial_size final_size w
  = (add_stdout w (report_lines initial_size final_size), Ok tt).
Proof.
  unfold report_sizes, report_lines, bind, lift, print, ret, add_stdout.
  rewrite !mib_ok. simpl.
  destruct (0 <? initial_size) eqn:Hpos.
  - rewrite reduction_ok by (apply Z.ltb_lt in Hpos; lia).
    simpl. by rewrite <- !app_assoc.
  - destruct w; simpl. by rewrite <- !app_assoc.
Qed.

(** [compress_pdf] once the input is there and opens. *)
Lemma compress_pdf_run input output q m w f doc :
  fs w !! input = Some f ->
  fitz_open f = Ok doc ->
  compress_pdf input output q m w
  = match for_pages q m (page_count doc) (seq 0 (page_count doc)) (doc, ∅)
            (add_calls w [CallOpen input]) with
    | (w1, Raise e) => (w1, Raise e)
    | (w1, Ok st) =>
        match doc_save st.1 (fs w !! output) with
        | (o, Some e) =>
            ({| fs := write_file output o (fs w);
                stdout := stdout w1 ++ [saving_message];
                calls := calls w1 ++ [CallSave output] |},
             Raise e)
        | (Some f', None) =>
            (add_stdout
               {| fs := <[output := f']> (fs w);
                  stdout := stdout w1 ++ [saving_message];
                  calls := calls w1 ++ [CallSave output; CallClose] |}
               (report_lines
                  (file_size (if decide (output = input) then f' else f))
                  (file_size f')),
             Ok tt)
        | (None, None) =>
            ({| fs := delete output (fs w);
                stdout := stdout w1 ++ [saving_message];
                calls := calls w1 ++ [CallSave output; CallClose] |},
             Raise (OSError "No such file or directory"))
        end
    end.
Proof.
  intros Hin Hopen. unfold compress_pdf. rewrite Hin.
  unfold bind at 1. unfold call at 1.
  unfold bind at 1. unfold lift at 1. rewrite Hopen.
  unfold bind at 1. fold (add_calls w [CallOpen input]).
  pose proof (for_pages_fs q m (page_count doc) (seq 0 (page_count doc))
                (doc, ∅) (add_calls w [CallOpen input])) as Hfs.
  destruct (for_pages q m (page_count doc) (seq 0 (page_count doc)) (doc, ∅)
              (add_calls w [CallOpen input])) as [w1 [st|e]]; [|reflexivity].
  simpl in Hfs.
  unfold bind at 1. unfold print at 1.
  unfold bind at 1. unfold save. unfold bind at 1. unfold call at 1.
  simpl fs. rewrite Hfs.
  destruct (doc_save st.1 (fs w !! output)) as [o [e|]];
    [destruct o; reflexivity|].
  simpl fst. simpl snd. cbv iota.
  unfold bind at 1. unfold close, call at 1. simpl calls.
  rewrite <- app_assoc. simpl app.
  unfold bind at 1. unfold getsize at 1. simpl fs.
  destruct o as [f'|]; unfold write_file.
  - rewrite lookup_insert. destruct (decide (output = input)) as [->|Hne].
    + unfold bind at 1. unfold getsize. simpl fs.
      rewrite lookup_insert_eq. by rewrite report_sizes_run.
    + rewrite Hin. unfold bind at 1. unfold getsize. simpl fs.
      rewrite lookup_insert_eq. by rewrite report_sizes_run.
  - destruct (decide (output = input)) as [->|Hne].
    + by rewrite lookup_delete_eq.
    + rewrite lookup_delete_ne, Hin by done.
      unfold bind at 1. unfold getsize. simpl fs.
      by rewrite lookup_delete_eq.
Qed.


End Run.

(** * The claims *)

(** ** C2: when an xref enters the processed-set *)

(** C2, counterexample.  Image 4 of [doc_one_corrupt] does not decode:
    its iteration ends normally and leaves the processed-set without 4,
    whereas the claim has the id recorded. *)
Lemma unreadable_image_is_not_recorded :
  exists st',
    snd (process_image 30 2000 0 (Model.entry 4 640 480)
           (Model.doc_one_corrupt, ∅) (Model.world_of [])) = Ok st'
    /\ img_xref (Model.entry 4 640 480) ∉ snd st'.
Proof.
  exists (Model.doc_one_corrupt, ∅). split.
  - vm_compute. reflexivity.
  - simpl. apply not_elem_of_empty.
Qed.

(** C2, amended.  For an image that passes the processed-set check: if
    materialization fails, the iteration ends normally with the document
    and the processed-set as they were (the id is not added); if
    materialization and lines 53-64 succeed, the id is added whatever
    [replace_image] answers. *)
Theorem processed_set_update `{L : Fitz} (q m : Z) (page : nat)
    (img : ImageEntry) (doc : Document) (P : gset Z) (w : World) :
  img_xref img ∉ P ->
  (forall e,
     Pixmap_of_xref doc (img_xref img) = Raise e ->
     process_image q m page img (doc, P) w
     = (add_calls w [CallPixmap (img_xref img)], Ok (doc, P)))
  /\ (forall pix w2 b,
        Pixmap_of_xref doc (img_xref img) = Ok pix ->
        recompress (img_xref img) pix q m
          (add_calls w [CallPixmap (img_xref img)]) = (w2, Ok b) ->
        process_image q m page img (doc, P) w
        = (add_calls w2 [CallReplace page (img_xref img) b],
           Ok ((replace_image doc page (img_xref img) b).1,
               P ∪ {[img_xref img]}))
        /\ img_xref img ∈ P ∪ {[img_xref img]}).
Proof.
  intros Hnot. split.
  - intros e He. by apply process_image_unreadable with e.
  - intros pix w2 b Hpix Hrec. split.
    + by rewrite (process_image_readable _ _ _ _ _ _ _ pix w2 (Ok b)).
    + apply elem_of_union; right. by apply elem_of_singleton.
Qed.

Lemma processed_set_update_witness :
  (img_xref (Model.entry 3 640 480) ∉ (∅ : gset Z))
  /\ snd (process_image 30 2000 0 (Model.entry 3 640 480)
            (Model.doc_fixed, ∅) (Model.world_of []))
     = Ok (Model.doc_fixed, ∅ ∪ {[3]}).
Proof.
  split; [apply not_elem_of_empty|].
  destruct (processed_set_update (L := Model.fitz) 30 2000 0
              (Model.entry 3 640 480)
              Model.doc_fixed ∅ (Model.world_of [])
              (not_elem_of_empty (C := gset Z) _)) as [_ H].
  edestruct H as [Heq _]; [reflexivity | reflexivity |].
  exact (f_equal snd Heq).
Defined.

(** ** C5: each xref is compressed at most once *)

Lemma at_most_once_frame `{L : Fitz} (a evs b : list event) :
  (forall x, count (is_tobytes x) a = 0%nat /\ count (is_replace x) a = 0%nat) ->
  (forall x, count (is_tobytes x) b = 0%nat /\ count (is_replace x) b = 0%nat) ->
  at_most_once evs -> at_most_once (a ++ evs ++ b).
Proof.
  intros Ha Hb H x. rewrite !count_app.
  destruct (Ha x) as [-> ->], (Hb x) as [-> ->], (H x). lia.
Qed.

Lemma log_inv_empty `{L : Fitz} : log_inv ∅ [].
Proof.
  intros x. split; [intros Hx; by apply not_elem_of_empty in Hx | done].
Qed.

(** The calls of a whole run: every xref is re-encoded at most once and
    replaced at most once. *)
Lemma compress_pdf_calls `{L : Fitz} (input output : string) (q m : Z)
    (w : World) :
  exists evs,
    calls (compress_pdf input output q m w).1 = calls w ++ evs
    /\ at_most_once evs.
Proof.
  assert (Hnil : at_most_once []) by (intros x; cbn; lia).
  destruct (fs w !! input) as [f|] eqn:Hin.
  2:{ unfold compress_pdf. rewrite Hin. exists []. simpl.
      by rewrite app_nil_r. }
  destruct (fitz_open f) as [doc|e] eqn:Hopen.
  2:{ unfold compress_pdf. rewrite Hin. unfold bind, call, lift; simpl.
      rewrite Hopen. exists [CallOpen input]. split; [done|].
      intros x; cbn; lia. }
  rewrite (compress_pdf_run _ _ _ _ _ f doc) by done.
  destruct (for_pages_inv q m (page_count doc) (seq 0 (page_count doc)) doc ∅
              (add_calls w [CallOpen input]) (calls w ++ [CallOpen input]) []
              ltac:(simpl; by rewrite app_nil_r) log_inv_empty)
    as (evs & Hc & Hm).
  destruct (for_pages q m (page_count doc) (seq 0 (page_count doc)) (doc, ∅)
              (add_calls w [CallOpen input])) as [w1 [st|e]]; simpl in Hc, Hm.
  - apply log_inv_at_most_once in Hm.
    destruct (doc_save st.1 (fs w !! output)) as [[f'|] [e|]]; simpl;
      rewrite Hc;
      (eexists ([CallOpen input] ++ evs ++ _);
       split;
       [by rewrite <- !app_assoc
       |apply at_most_once_frame; [by intros | by intros | done]]).
  - exists ([CallOpen input] ++ evs ++ []). split.
    + simpl. rewrite Hc, app_nil_r. by rewrite <- app_assoc.
    + apply at_most_once_frame; [by intros | by intros | done].
Qed.

(** C5, counterexample.  Image 5 of [doc_shared_corrupt] is referenced by
    both pages and does not decode: the run calls [fitz.Pixmap] for it twice
    and never re-encodes it, so the procedure did not execute exactly
    once. *)
Lemma shared_unreadable_image_is_retried :
  count (is_pixmap 5)
    (calls (fst (compress_pdf "in.pdf" "out.pdf" 30 2000
                   (Model.world_of
                      [("in.pdf", Model.pdf 4096 Model.doc_shared_corrupt)]))))
  = 2%nat
  /\ count (is_tobytes 5)
       (calls (fst (compress_pdf "in.pdf" "out.pdf" 30 2000
                      (Model.world_of
                         [("in.pdf", Model.pdf 4096 Model.doc_shared_corrupt)]))))
     = 0%nat.
Proof. split; vm_compute; reflexivity. Qed.

(** C5, amended.  In one pass over the pages, starting from the empty
    processed-set: every xref is re-encoded at most once and replaced at
    most once; when the pass ends normally, an xref of the final
    processed-set was re-encoded and replaced exactly once and any other
    xref never; an iteration on an xref already in the set changes nothing;
    and over a whole run of [compress_pdf] no xref is re-encoded or replaced
    twice. *)
Theorem each_xref_compressed_at_most_once `{L : Fitz} (q m : Z) :
  (forall total pages doc w,
     exists evs,
       calls (for_pages q m total pages (doc, ∅) w).1 = calls w ++ evs
       /\ (forall x, (count (is_tobytes x) evs <= 1)%nat
                     /\ (count (is_replace x) evs <= 1)%nat)
       /\ (forall st', (for_pages q m total pages (doc, ∅) w).2 = Ok st' ->
            forall x,
              (x ∈ st'.2 -> count (is_tobytes x) evs = 1%nat
                            /\ count (is_replace x) evs = 1%nat)
              /\ (x ∉ st'.2 -> count (is_tobytes x) evs = 0%nat
                               /\ count (is_replace x) evs = 0%nat)))
  /\ (forall page img doc P w,
        process_image q m page img (doc, P ∪ {[img_xref img]}) w
        = (w, Ok (doc, P ∪ {[img_xref img]})))
  /\ (forall input output w,
        exists evs,
          calls (compress_pdf input output q m w).1 = calls w ++ evs
          /\ (forall x, (count (is_tobytes x) evs <= 1)%nat
                        /\ (count (is_replace x) evs <= 1)%nat)).
Proof.
  split; [|split].
  - intros total pages doc w.
    destruct (for_pages_inv q m total pages doc ∅ w (calls w) []
                ltac:(by rewrite app_nil_r) log_inv_empty) as (evs & Hc & Hm).
    exists evs. split; [done|]. split.
    + destruct ((for_pages q m total pages (doc, ∅) w).2) as [a|];
        [by apply (log_inv_at_most_once a.2) | done].
    + intros st' Hst. rewrite Hst in Hm. exact Hm.
  - intros page img doc P w. apply process_image_skip.
    apply elem_of_union; right. by apply elem_of_singleton.
  - intros input output w. apply compress_pdf_calls.
Qed.

(** ** C8: a failed replacement *)




(** ** C6: the input file is missing *)

(** C6.  When the input path does not exist (and [fitz] was imported), the
    process prints the one line "Error: File not found: <path>", leaves the
    file system as it was, makes no library call and ends with status 0;
    the dependency check, by contrast, ends with status 1. *)
Theorem missing_input_file `{L : Fitz} (args : Args) (w : World) :
  fs w !! arg_input args = None ->
  script true args w
  = (add_stdout w ["Error: File not found: " +:+ arg_input args +:+ NL], 0)
  /\ fs (script true args w).1 = fs w
  /\ calls (script true args w).1 = calls w
  /\ (script false args w).2 = 1.
Proof.
  intros Hnone.
  assert (H : script true args w
              = (add_stdout w
                   ["Error: File not found: " +:+ arg_input args +:+ NL], 0)).
  { unfold script, main, compress_pdf. rewrite Hnone. reflexivity. }
  rewrite H. repeat split; reflexivity.
Qed.

Lemma missing_input_file_witness :
  fs (Model.world_of [("other.pdf", Model.pdf 10 Model.doc_large)])
    !! "in.pdf" = None
  /\ script true
       {| arg_input := "in.pdf"; arg_output := None;
          arg_quality := 30; arg_max_dim := 2000 |}
       (Model.world_of [("other.pdf", Model.pdf 10 Model.doc_large)])
     = ({| fs := fs (Model.world_of
                       [("other.pdf", Model.pdf 10 Model.doc_large)]);
           stdout := ["Error: File not found: in.pdf" +:+ NL];
           calls := [] |}, 0).
Proof.
  split; [reflexivity|].
  apply (missing_input_file (L := Model.fitz)
           {| arg_input := "in.pdf"; arg_output := None;
              arg_quality := 30; arg_max_dim := 2000 |}
           (Model.world_of [("other.pdf", Model.pdf 10 Model.doc_large)])).
  reflexivity.
Defined.

(** ** C10: [max_dimension = 0] *)

Section FirstReadable.
Context `{L : Fitz}.
Variable doc : Document.

(** What the colorspace step returns or raises does not depend on the
    world it runs in. *)
Lemma normalize_colorspace_result (x : Z) (pix : Pixmap) (w w' : World) :
  (normalize_colorspace x pix w).2 = (normalize_colorspace x pix w').2.
Proof.
  rewrite !normalize_colorspace_run.
  destruct (pix_colorspace pix) as [cs|]; [|reflexivity].
  destruct (3 <? cs_n cs); reflexivity.
Qed.

Lemma recompress_colorspace_raises (x : Z) (pix : Pixmap) (q m : Z)
    (w : World) (e : exn) :
  (normalize_colorspace x pix w).2 = Raise e ->
  (recompress x pix q m w).2 = Raise e.
Proof.
  intros H. unfold recompress. unfold bind at 1.
  destruct (normalize_colorspace x pix w) as [w1 [p|e']]; simpl in H;
    [discriminate | by injection H as ->].
Qed.

Lemma recompress_zero (x : Z) (pix : Pixmap) (q : Z) (w : World)
    (p : Pixmap) :
  (normalize_colorspace x pix w).2 = Ok p ->
  0 < Z.max (pix_width p) (pix_height p) ->
  (recompress x pix q 0 w).2 = Raise ZeroDivisionError.
Proof.
  intros H Hpos. unfold recompress. unfold bind at 1.
  destruct (normalize_colorspace x pix w) as [w1 [p'|e']]; simpl in H;
    [|discriminate].
  injection H as ->. unfold bind at 1. rewrite downscale_run; cbv zeta.
  by rewrite (proj2 (Z.ltb_lt _ _) Hpos).
Qed.

(** Until an image materializes the loops change nothing; an exception of
    lines 53-64 on the first image that does leaves them. *)
Lemma for_images_first (q m : Z) (page : nat) (imgs : list ImageEntry) :
  forall w,
    match first_readable_image doc imgs with
    | None => (for_images q m page imgs (doc, ∅) w).2 = Ok (doc, ∅)
    | Some (x, pix) =>
        exists w1, forall e,
          (recompress x pix q m w1).2 = Raise e ->
          (for_images q m page imgs (doc, ∅) w).2 = Raise e
    end.
Proof.
  induction imgs as [|img rest IH]; intros w; [reflexivity|].
  rewrite for_images_cons. simpl first_readable_image.
  destruct (Pixmap_of_xref doc (img_xref img)) as [pix|e0] eqn:Hpix.
  - exists (add_calls w [CallPixmap (img_xref img)]). intros e He.
    destruct (recompress (img_xref img) pix q m
                (add_calls w [CallPixmap (img_xref img)])) as [w2 r] eqn:Hrec.
    simpl in He. subst r.
    by rewrite (process_image_readable _ _ _ _ _ _ _ pix w2 (Raise e))
      by (try apply not_elem_of_empty; done).
  - rewrite (process_image_unreadable _ _ _ _ _ _ _ e0)
      by (try apply not_elem_of_empty; done).
    apply IH.
Qed.

Lemma for_pages_first (q m : Z) (total : nat) (pages : list nat) :
  forall w,
    match first_readable doc pages with
    | None => (for_pages q m total pages (doc, ∅) w).2 = Ok (doc, ∅)
    | Some (x, pix) =>
        exists w1, forall e,
          (recompress x pix q m w1).2 = Raise e ->
          (for_pages q m total pages (doc, ∅) w).2 = Raise e
    end.
Proof.
  induction pages as [|i rest IH]; intros w; [reflexivity|].
  rewrite for_pages_cons. simpl first_readable. simpl fst.
  pose proof (for_images_first q m i (get_images doc i)
                (add_stdout w [progress i total])) as Hi.
  destruct (first_readable_image doc (get_images doc i)) as [[x pix]|].
  - destruct Hi as [w1 Hi]. exists w1. intros e He.
    specialize (Hi e He).
    destruct (for_images q m i (get_images doc i) (doc, ∅)
                (add_stdout w [progress i total])) as [w2 r].
    simpl in Hi. by subst r.
  - destruct (for_images q m i (get_images doc i) (doc, ∅)
                (add_stdout w [progress i total])) as [w2 r].
    simpl in Hi. subst r. apply IH.
Qed.

Lemma first_readable_image_some (imgs : list ImageEntry) (img : ImageEntry) :
  img ∈ imgs ->
  is_ok (Pixmap_of_xref doc (img_xref img)) = true ->
  is_Some (first_readable_image doc imgs).
Proof.
  intros Himg Hok. induction imgs as [|a rest IH];
    [by apply not_elem_of_nil in Himg|].
  simpl. destruct (Pixmap_of_xref doc (img_xref a)) as [pix|e] eqn:Ha;
    [by eexists|].
  apply elem_of_cons in Himg as [->|Himg]; [|by apply IH].
  by rewrite Ha in Hok.
Qed.

Lemma first_readable_some (pages : list nat) (i : nat) (img : ImageEntry) :
  i ∈ pages ->
  img ∈ get_images doc i ->
  is_ok (Pixmap_of_xref doc (img_xref img)) = true ->
  is_Some (first_readable doc pages).
Proof.
  intros Hi Himg Hok. induction pages as [|j rest IH];
    [by apply not_elem_of_nil in Hi|].
  simpl.
  destruct (first_readable_image doc (get_images doc j)) as [r|] eqn:Hj;
    [by eexists|].
  apply elem_of_cons in Hi as [->|Hi]; [|by apply IH].
  destruct (first_readable_image_some _ _ Himg Hok) as [r Hr].
  by rewrite Hr in Hj.
Qed.

(** An exception that leaves the loops leaves the process, and nothing was
    written. *)
Lemma loops_abort (args : Args) (w : World) (f : File) (e : exn) :
  fs w !! arg_input args = Some f ->
  fitz_open f = Ok doc ->
  (for_pages (arg_quality args) (arg_max_dim args) (page_count doc)
     (seq 0 (page_count doc)) (doc, ∅)
     (add_calls w [CallOpen (arg_input args)])).2 = Raise e ->
  aborts_with args w e.
Proof.
  intros Hin Hopen Hrun.
  assert (Hmain : (main args w).2 = Raise e /\ fs (main args w).1 = fs w).
  { unfold main. rewrite (compress_pdf_run _ _ _ _ _ f doc) by done.
    pose proof (for_pages_fs (arg_quality args) (arg_max_dim args)
                  (page_count doc) (seq 0 (page_count doc)) (doc, ∅)
                  (add_calls w [CallOpen (arg_input args)])) as Hfs.
    destruct (for_pages (arg_quality args) (arg_max_dim args)
                (page_count doc) (seq 0 (page_count doc)) (doc, ∅)
                (add_calls w [CallOpen (arg_input args)])) as [w1 r].
    simpl in Hrun, Hfs. by subst r. }
  destruct Hmain as [Hr Hfs]. unfold aborts_with. split; [exact Hr|].
  unfold script. destruct (main args w) as [w1 r]. simpl in Hr, Hfs.
  subst r. simpl. auto.
Qed.

End FirstReadable.

(** C10, counterexample.  [doc_mask] lists a stencil mask before a
    4000x3000 image, and both materialize.  With [-m 0] the run stops at
    the mask with the [AttributeError] of line 54, after the calls
    [fitz.open] and [fitz.Pixmap] for xref 3: the division of line 59 is not
    reached, and no [ZeroDivisionError] is raised. *)
Lemma stencil_mask_preempts_division :
  Pixmap_of_xref Model.doc_mask 4
  = Ok {| Model.p_width := 4000; Model.p_height := 3000;
          Model.p_cs := Some csRGB; Model.p_alpha := false |}
  /\ main {| arg_input := "in.pdf"; arg_output := None;
             arg_quality := 30; arg_max_dim := 0 |}
       (Model.world_of [("in.pdf", Model.pdf 4096 Model.doc_mask)])
     = ({| fs := fs (Model.world_of
                       [("in.pdf", Model.pdf 4096 Model.doc_mask)]);
           stdout := ["Processing page 1/1..." +:+ CR];
           calls := [CallOpen "in.pdf"; CallPixmap 3] |},
        Raise (AttributeError "'NoneType' object has no attribute 'n'")).
Proof. split; vm_compute; reflexivity. Qed.

(** C10, amended.  The division of line 59 is defined for every
    [max_dimension >= 1] (the downscale step then never raises), and is a
    [ZeroDivisionError] for [max_dimension = 0] on any pixmap with a
    positive dimension.  The command line hands [-m 0] to [compress_pdf]
    unchecked.  A document with a listed image that materializes has a
    first such image, in page and listing order, and with
    [max_dimension = 0] the run stops at it: with the exception of its
    colorspace step (lines 54-55) when that step raises, otherwise with the
    [ZeroDivisionError] when the pixmap that reaches the downscale step has
    a positive dimension.  In both cases the exception leaves
    [compress_pdf], the process ends with status 1 and the file system is
    as it was (nothing is saved). *)
Theorem zero_max_dimension_aborts `{L : Fitz} :
  (forall x pix m w, 1 <= m -> is_ok (downscale x pix m w).2 = true)
  /\ (forall x pix w,
        0 < Z.max (pix_width pix) (pix_height pix) ->
        downscale x pix 0 w = (w, Raise ZeroDivisionError))
  /\ (forall doc i img,
        (i < page_count doc)%nat ->
        img ∈ get_images doc i ->
        is_ok (Pixmap_of_xref doc (img_xref img)) = true ->
        is_Some (first_readable doc (seq 0 (page_count doc))))
  /\ (forall args w f doc x pix,
        arg_max_dim args = 0 ->
        fs w !! arg_input args = Some f ->
        fitz_open f = Ok doc ->
        first_readable doc (seq 0 (page_count doc)) = Some (x, pix) ->
        (forall w1 e,
           (normalize_colorspace x pix w1).2 = Raise e ->
           aborts_with args w e)
        /\ (forall w1 p,
              (normalize_colorspace x pix w1).2 = Ok p ->
              0 < Z.max (pix_width p) (pix_height p) ->
              aborts_with args w ZeroDivisionError)).
Proof.
  split; [|split; [|split]].
  - intros x pix m w Hm. rewrite downscale_run; cbv zeta.
    destruct (m <? _); [|reflexivity].
    rewrite (proj2 (Z.eqb_neq m 0)) by lia.
    destruct (1 <? _); reflexivity.
  - intros x pix w Hpos. rewrite downscale_run; cbv zeta.
    by rewrite (proj2 (Z.ltb_lt _ _) Hpos).
  - intros doc i img Hi Himg Hok.
    apply (first_readable_some doc _ i img); [|done..].
    apply list_elem_of_In, in_seq. lia.
  - intros args w f doc x pix Hm Hin Hopen Hfirst.
    pose proof (for_pages_first doc (arg_quality args) (arg_max_dim args)
                  (page_count doc) (seq 0 (page_count doc))
                  (add_calls w [CallOpen (arg_input args)])) as Hrun.
    rewrite Hfirst in Hrun. destruct Hrun as [w0 Hrun]. split.
    + intros w1 e He. apply (loops_abort doc args w f e Hin Hopen).
      apply Hrun. apply recompress_colorspace_raises.
      by rewrite (normalize_colorspace_result x pix w0 w1).
    + intros w1 p Hp Hpos.
      apply (loops_abort doc args w f ZeroDivisionError Hin Hopen).
      apply Hrun. rewrite Hm. apply recompress_zero with p; [|done].
      by rewrite (normalize_colorspace_result x pix w0 w1).
Qed.

Lemma zero_max_dimension_witness :
  snd (main {| arg_input := "in.pdf"; arg_output := None;
               arg_quality := 30; arg_max_dim := 0 |}
         (Model.world_of [("in.pdf", Model.pdf 4096 Model.doc_large)]))
  = Raise ZeroDivisionError
  /\ fs (fst (script true
               {| arg_input := "in.pdf"; arg_output := None;
                  arg_quality := 30; arg_max_dim := 0 |}
               (Model.world_of [("in.pdf", Model.pdf 4096 Model.doc_large)])))
       !! "in_compressed.pdf" = None.
Proof.
  destruct (zero_max_dimension_aborts (L := Model.fitz)) as (_ & _ & _ & H).
  destruct (H {| arg_input := "in.pdf"; arg_output := None;
                 arg_quality := 30; arg_max_dim := 0 |}
              (Model.world_of [("in.pdf", Model.pdf 4096 Model.doc_large)])
              (Model.pdf 4096 Model.doc_large) Model.doc_large
              7 {| Model.p_width := 4000; Model.p_height := 3000;
                   Model.p_cs := Some csRGB; Model.p_alpha := false |}
              eq_refl eq_refl eq_refl eq_refl) as [_ Hz].
  destruct (Hz (Model.world_of [])
              {| Model.p_width := 4000; Model.p_height := 3000;
                 Model.p_cs := Some csRGB; Model.p_alpha := false |}
              eq_refl eq_refl) as (Hr & _ & Hfs).
  split; [exact Hr|]. rewrite Hfs. reflexivity.
Defined.

(** ** C3: which failures are caught *)


Section Isolation.
Context `{L : Fitz}.
Variable I : Document -> Prop.
Variables (q m : Z) (doc0 : Document).
Implicit Types (doc : Document) (P : gset Z) (w : World) (img : ImageEntry).

(** [I] holds of the documents the run goes through: it is kept by
    [replace_image], and on such a document the image lists are those of
    [doc0], lines 53-64 succeed on every pixmap that materializes, and the
    save succeeds. *)
Hypothesis I_replace :
  forall doc page x b, I doc -> I (replace_image doc page x b).1.
Hypothesis I_images :
  forall doc i, I doc -> get_images doc i = get_images doc0 i.
Hypothesis I_recompress :
  forall doc x pix w,
    I doc -> Pixmap_of_xref doc x = Ok pix ->
    is_ok (recompress x pix q m w).2 = true.




End Isolation.


(** *** The model document with one unreadable image *)





(** ** C9: the default output path *)

Section Strings.
Import PyStr.

Lemma take_drop (n : nat) (s : string) : take n s +:+ drop n s = s.
Proof.
  revert s; induction n as [|n IH]; intros s; [reflexivity|].
  destruct s as [|a s]; [reflexivity|].
  change (String a (take n s +:+ drop n s) = String a s). by rewrite IH.
Qed.

Lemma length_append (s t : string) :
  String.length (s +:+ t) = (String.length s + String.length t)%nat.
Proof. induction s as [|a s IH]; simpl; [reflexivity | by rewrite IH]. Qed.

Lemma length_take (n : nat) (s : string) :
  String.length (take n s) = Nat.min n (String.length s).
Proof.
  revert s; induction n as [|n IH]; intros s; [reflexivity|].
  destruct s as [|a s]; [reflexivity|]. simpl. by rewrite IH.
Qed.

Lemma drop_all (n : nat) (s : string) :
  (String.length s <= n)%nat -> drop n s = EmptyString.
Proof.
  revert s; induction n as [|n IH]; intros s H.
  - destruct s; [reflexivity | simpl in H; lia].
  - destruct s as [|a s]; [reflexivity|]. simpl in *. apply IH. lia.
Qed.

Lemma take_append_le (n : nat) (s t : string) :
  (n <= String.length s)%nat -> take n (s +:+ t) = take n s.
Proof.
  revert s; induction n as [|n IH]; intros s H; [reflexivity|].
  destruct s as [|a s]; [simpl in H; lia|]. simpl in *. rewrite IH; [done|lia].
Qed.

Lemma rfind_bounds (c : ascii) (s : string) :
  -1 <= rfind c s < Z.of_nat (String.length s).
Proof.
  induction s as [|a s IH]; simpl; [lia|].
  destruct (0 <=? rfind c s) eqn:H.
  - apply Z.leb_le in H. lia.
  - destruct (Ascii.eqb a c); lia.
Qed.

Lemma rfind_append (c : ascii) (s t : string) :
  rfind c (s +:+ t)
  = if 0 <=? rfind c t then Z.of_nat (String.length s) + rfind c t
    else rfind c s.
Proof.
  induction s as [|a s IH]; simpl String.length.
  - change (EmptyString +:+ t) with t.
    destruct (0 <=? rfind c t) eqn:H; [lia|].
    apply Z.leb_gt in H. pose proof (rfind_bounds c t). simpl. lia.
  - change (String a s +:+ t) with (String a (s +:+ t)).
    simpl rfind. rewrite IH.
    destruct (0 <=? rfind c t) eqn:H.
    + apply Z.leb_le in H.
      rewrite (proj2 (Z.leb_le 0 (Z.of_nat (String.length s) + rfind c t)))
        by lia.
      lia.
    + reflexivity.
Qed.

(** Past the last occurrence there is none. *)
Lemma rfind_drop (c : ascii) (n : nat) (s : string) :
  rfind c s < Z.of_nat n -> rfind c (drop n s) = -1.
Proof.
  intros H.
  destruct (Nat.le_gt_cases (String.length s) n) as [Hle|Hgt].
  { by rewrite drop_all. }
  pose proof (rfind_append c (take n s) (drop n s)) as Happ.
  rewrite take_drop, length_take in Happ.
  pose proof (rfind_bounds c (drop n s)).
  destruct (0 <=? rfind c (drop n s)) eqn:Hd; [|apply Z.leb_gt in Hd; lia].
  apply Z.leb_le in Hd. lia.
Qed.

Lemma append_empty (p : string) : p +:+ EmptyString = p.
Proof.
  induction p as [|a p IH]; [reflexivity|].
  change (String a (p +:+ EmptyString) = String a p). by rewrite IH.
Qed.

Lemma splitext_concat (p : string) :
  (OsPath.splitext p).1 +:+ (OsPath.splitext p).2 = p.
Proof.
  unfold OsPath.splitext.
  destruct (_ && _); simpl; [apply take_drop | apply append_empty].
Qed.

(** The extension holds no separator. *)
Lemma splitext_ext_no_sep (p : string) :
  rfind OsPath.sep (OsPath.splitext p).2 = -1.
Proof.
  unfold OsPath.splitext.
  destruct (_ <? _) eqn:Hlt; simpl; [|reflexivity].
  destruct (OsPath.skip_leading_dots _ _ _); simpl; [|reflexivity].
  apply Z.ltb_lt in Hlt. apply rfind_drop.
  pose proof (rfind_bounds OsPath.sep p). lia.
Qed.

Lemma dir_prefix_append (s t : string) :
  rfind OsPath.sep t = -1 ->
  OsPath.dir_prefix (s +:+ t) = OsPath.dir_prefix s.
Proof.
  intros Ht. unfold OsPath.dir_prefix.
  rewrite rfind_append, Ht. simpl.
  apply take_append_le. pose proof (rfind_bounds OsPath.sep s). lia.
Qed.

End Strings.

(** C9.  With no [-o] value the destination is [name + "_compressed" +
    ext] where [(name, ext) = os.path.splitext(input)]: [name + ext] is the
    input path, [ext] holds no ["/"], and so the destination has the
    directory part of the input; ["dir/a.pdf"] gives
    ["dir/a_compressed.pdf"]. *)
Theorem default_output_path `{L : Fitz} (input : string) (q m : Z) :
  output_path_of
    {| arg_input := input; arg_output := None;
       arg_quality := q; arg_max_dim := m |}
  = (OsPath.splitext input).1 +:+ "_compressed" +:+ (OsPath.splitext input).2
  /\ (OsPath.splitext input).1 +:+ (OsPath.splitext input).2 = input
  /\ PyStr.rfind OsPath.sep (OsPath.splitext input).2 = -1
  /\ OsPath.dir_prefix
       (output_path_of
          {| arg_input := input; arg_output := None;
             arg_quality := q; arg_max_dim := m |})
     = OsPath.dir_prefix input
  /\ main {| arg_input := input; arg_output := None;
             arg_quality := q; arg_max_dim := m |}
     = compress_pdf input
         ((OsPath.splitext input).1 +:+ "_compressed"
            +:+ (OsPath.splitext input).2) q m
  /\ output_path_of
       {| arg_input := "dir/a.pdf"; arg_output := None;
          arg_quality := q; arg_max_dim := m |}
     = "dir/a_compressed.pdf".
Proof.
  assert (Hout : output_path_of
                   {| arg_input := input; arg_output := None;
                      arg_quality := q; arg_max_dim := m |}
                 = (OsPath.splitext input).1 +:+ "_compressed"
                     +:+ (OsPath.splitext input).2).
  { unfold output_path_of; simpl. by destruct (OsPath.splitext input). }
  split; [exact Hout|].
  split; [apply splitext_concat|].
  split; [apply splitext_ext_no_sep|].
  split; [|split; [|reflexivity]].
  - rewrite Hout.
    rewrite <- (splitext_concat input) at 3.
    rewrite !dir_prefix_append; [reflexivity | apply splitext_ext_no_sep |].
    rewrite rfind_append, splitext_ext_no_sep. reflexivity.
  - unfold main. by rewrite Hout.
Qed.

(** ** C7: the size report *)

Lemma length_digits (k : nat) (v : Z) : String.length (PyNum.digits k v) = k.
Proof.
  revert v; induction k as [|k IH]; intros v; [reflexivity|].
  simpl PyNum.digits. rewrite length_append, IH. simpl. lia.
Qed.

(** [format_f (S k)] of a finite or zero float: a sign, an integer part, a
    point and exactly [S k] digits. *)
Lemma format_f_places (k : nat) (x : PyNum.float) :
  (exists s m e, x = S754_finite s m e) \/ (exists s, x = S754_zero s) ->
  exists s ip fp,
    PyNum.format_f (S k) x = PyNum.sign_str s +:+ ip +:+ "." +:+ fp
    /\ String.length fp = S k.
Proof.
  intros [(s & m & e & ->) | (s & ->)].
  - exists s, (pretty (PyNum.round_scaled m e (S k) / 10 ^ Z.of_nat (S k))),
      (PyNum.digits (S k)
         (PyNum.round_scaled m e (S k) mod 10 ^ Z.of_nat (S k))).
    split; [reflexivity | apply length_digits].
  - exists s, "0", (PyNum.digits (S k) 0).
    split; [reflexivity | apply length_digits].
Qed.

(** C7.  The report prints "Original size" and "Compressed size" as
    [bytes / 1024 / 1024] formatted with [.2f], then "Reduction" as
    [(1 - final / initial) * 100] formatted with [.1f] exactly when the
    initial size is positive, and never raises; [.2f] and [.1f] of a finite
    float end in exactly two and one digits after the point; it is what
    [compress_pdf] prints once the document is saved, on the sizes of the
    input and output files; 10485760 and 5242880 bytes give the three lines
    of the scenario. *)
Theorem size_report `{L : Fitz} :
  (forall initial_size final_size w,
     report_sizes initial_size final_size w
     = (add_stdout w
          ([ "Original size: "
               +:+ PyNum.format_f 2
                     (SFdiv 53 1024
                        (SFdiv 53 1024 (PyNum.of_int initial_size)
                           (PyNum.of_int 1024))
                        (PyNum.of_int 1024))
               +:+ " MB" +:+ NL;
             "Compressed size: "
               +:+ PyNum.format_f 2
                     (SFdiv 53 1024
                        (SFdiv 53 1024 (PyNum.of_int final_size)
                           (PyNum.of_int 1024))
                        (PyNum.of_int 1024))
               +:+ " MB" +:+ NL ]
           ++ (if 0 <? initial_size
               then [ "Reduction: "
                        +:+ PyNum.format_f 1
                              (PyNum.mul
                                 (PyNum.sub (PyNum.of_int 1)
                                    (SFdiv 53 1024 (PyNum.of_int final_size)
                                       (PyNum.of_int initial_size)))
                                 (PyNum.of_int 100))
                        +:+ "%" +:+ NL ]
               else [])),
        Ok tt))
  /\ (forall k s m e,
        exists s' ip fp,
          PyNum.format_f (S k) (S754_finite s m e)
          = PyNum.sign_str s' +:+ ip +:+ "." +:+ fp
          /\ String.length fp = S k)
  /\ (forall input output q m w f doc w1 st f',
        fs w !! input = Some f ->
        fitz_open f = Ok doc ->
        for_pages q m (page_count doc) (seq 0 (page_count doc)) (doc, ∅)
          (add_calls w [CallOpen input]) = (w1, Ok st) ->
        doc_save st.1 (fs w !! output) = (Some f', None) ->
        exists w2,
          compress_pdf input output q m w
          = report_sizes
              (file_size (if decide (output = input) then f' else f))
              (file_size f') w2
          /\ fs w2 = <[output := f']> (fs w)
          /\ stdout w2 = stdout w1 ++ [saving_message])
  /\ (forall w,
        report_sizes 10485760 5242880 w
        = (add_stdout w
             [ "Original size: 10.00 MB" +:+ NL;
               "Compressed size: 5.00 MB" +:+ NL;
               "Reduction: 50.0%" +:+ NL ],
           Ok tt)).
Proof.
  split; [|split; [|split]].
  - intros. apply report_sizes_run.
  - intros k s m e. apply format_f_places. left. eauto.
  - intros input output q m w f doc w1 st f' Hin Hopen Hrun Hsave.
    rewrite (compress_pdf_run _ _ _ _ _ f doc) by done.
    rewrite Hrun, Hsave.
    eexists {| fs := <[output := f']> (fs w);
               stdout := stdout w1 ++ [saving_message];
               calls := calls w1 ++ [CallSave output; CallClose] |}.
    by rewrite report_sizes_run.
  - intros w. rewrite report_sizes_run. reflexivity.
Qed.

Lemma size_report_witness :
  stdout (fst (compress_pdf "in.pdf" "out.pdf" 30 2000
                 (Model.world_of [("in.pdf", Model.pdf 1000 Model.doc_large)])))
  = [ "Processing page 1/1..." +:+ CR;
      NL +:+ "Saving compressed PDF..." +:+ NL;
      "Original size: 0.00 MB" +:+ NL;
      "Compressed size: 0.00 MB" +:+ NL;
      "Reduction: 89.5%" +:+ NL ].
Proof.
  destruct (size_report (L := Model.fitz)) as (_ & _ & H & _).
  edestruct (H "in.pdf" "out.pdf" 30 2000
               (Model.world_of [("in.pdf", Model.pdf 1000 Model.doc_large)]))
    as (w2 & Heq & _ & Hout); [reflexivity..|].
  rewrite Heq, report_sizes_run. simpl. rewrite Hout. reflexivity.
Defined.

(** ** C4: the colorspace of the re-encoded buffer *)

(** C4.  Let [fitz.Pixmap(cs, pix)] return a pixmap whose colorspace is
    [cs], and let [shrink] keep the colorspace.  For a materialized pixmap
    of colorspace [cs]: with at most 3 channels no conversion is called,
    the buffer entering the downscale step is the pixmap itself and the
    buffer handed to [tobytes] still has colorspace [cs]; with more than 3
    channels [fitz.Pixmap(fitz.csRGB, pix)] is called and the buffer handed
    to [tobytes] has colorspace [csRGB], which has exactly 3 channels. *)
Theorem colorspace_of_reencoded_buffer `{L : Fitz} (x : Z) (pix : Pixmap)
    (cs : Colorspace) (q m : Z) (w w' : World) (b : bytes) :
  (forall c p p', Pixmap_of_cs c p = Ok p' -> pix_colorspace p' = Some c) ->
  (forall p n, pix_colorspace (shrink p n) = pix_colorspace p) ->
  pix_colorspace pix = Some cs ->
  recompress x pix q m w = (w', Ok b) ->
  exists evs buf,
    calls w' = calls w ++ evs ++ [CallTobytes x buf q]
    /\ tobytes buf q = Ok b
    /\ (cs_n cs <= 3 ->
        normalize_colorspace x pix w = (w, Ok pix)
        /\ (CallConvert x ∉ evs)
        /\ pix_colorspace buf = Some cs)
    /\ (3 < cs_n cs ->
        normalize_colorspace x pix w
        = (add_calls w [CallConvert x], Pixmap_of_cs csRGB pix)
        /\ (CallConvert x ∈ evs)
        /\ pix_colorspace buf = Some csRGB
        /\ cs_n csRGB = 3).
Proof.
  intros Hconv Hshrink Hcs.
  assert (Hdown : forall p w1 w2 r,
            downscale x p m w1 = (w2, r) ->
            (exists p2, r = Ok p2 /\ pix_colorspace p2 = pix_colorspace p
                        /\ (w2 = w1 \/ exists f, w2 = add_calls w1 [CallShrink x f]))
            \/ (exists e, r = Raise e)).
  { intros p w1 w2 r. rewrite downscale_run; cbv zeta.
    destruct (m <? _); [|intros [= <- <-]; left; eauto].
    destruct (m =? 0); [intros [= <- <-]; right; eauto|].
    destruct (1 <? _); intros [= <- <-]; left; eauto 8. }
  unfold recompress. unfold bind at 1.
  rewrite normalize_colorspace_run, Hcs.
  destruct (3 <? cs_n cs) eqn:Hn.
  - apply Z.ltb_lt in Hn.
    destruct (Pixmap_of_cs csRGB pix) as [p1|e] eqn:Hp1; [|discriminate].
    unfold bind at 1.
    destruct (downscale x p1 m (add_calls w [CallConvert x])) as [w2 r] eqn:Hd.
    destruct (Hdown _ _ _ _ Hd) as [(p2 & -> & Hc2 & Hw2) | (e & ->)];
      [|discriminate].
    rewrite reencode_run. intros [= <- Hb].
    rewrite (Hconv _ _ _ Hp1) in Hc2.
    destruct Hw2 as [-> | (f & ->)].
    + exists [CallConvert x], p2. simpl. rewrite <- app_assoc.
      repeat split; try done; try lia. apply list_elem_of_here.
    + exists [CallConvert x; CallShrink x f], p2. simpl.
      rewrite <- !app_assoc.
      repeat split; try done; try lia. apply list_elem_of_here.
  - apply Z.ltb_ge in Hn.
    unfold bind at 1.
    destruct (downscale x pix m w) as [w2 r] eqn:Hd.
    destruct (Hdown _ _ _ _ Hd) as [(p2 & -> & Hc2 & Hw2) | (e & ->)];
      [|discriminate].
    rewrite reencode_run. intros [= <- Hb].
    rewrite Hcs in Hc2.
    destruct Hw2 as [-> | (f & ->)].
    + exists [], p2. simpl.
      repeat split; try done; try lia. apply not_elem_of_nil.
    + exists [CallShrink x f], p2. simpl. rewrite <- !app_assoc.
      repeat split; try done; try lia.
      intros Hin. apply list_elem_of_singleton in Hin. discriminate.
Qed.

Lemma model_convert_colorspace (c : Colorspace) (p p' : Model.pixmap) :
  Model.m_convert c p = Ok p' -> Model.p_cs p' = Some c.
Proof. by intros [= <-]. Qed.

Lemma model_shrink_colorspace (p : Model.pixmap) (n : Z) :
  Model.p_cs (Model.m_shrink p n) = Model.p_cs p.
Proof. unfold Model.m_shrink. by destruct (n <? 1). Qed.

Lemma colorspace_of_reencoded_buffer_witness :
  exists evs buf,
    calls (fst (recompress (L := Model.fitz) 6
                  {| Model.p_width := 100; Model.p_height := 100;
                     Model.p_cs := Some Model.csCMYK;
                     Model.p_alpha := false |}
                  30 2000 (Model.world_of [])))
    = [] ++ evs ++ [CallTobytes 6 buf 30]
    /\ (CallConvert 6 ∈ evs)
    /\ pix_colorspace buf = Some csRGB.
Proof.
  edestruct (colorspace_of_reencoded_buffer (L := Model.fitz) 6
               {| Model.p_width := 100; Model.p_height := 100;
                  Model.p_cs := Some Model.csCMYK; Model.p_alpha := false |}
               Model.csCMYK 30 2000 (Model.world_of []))
    as (evs & buf & Hcalls & _ & _ & Hrgb).
  - exact model_convert_colorspace.
  - exact model_shrink_colorspace.
  - reflexivity.
  - reflexivity.
  - exists evs, buf. split; [exact Hcalls|].
    destruct Hrgb as (_ & Hin & Hbuf & _); [simpl; lia|]. by split.
Defined.

(** ** C1: the downscale step *)

(** What lines 58-61 do for any library: [shrink] is called, with the
    argument [d // max_dimension], exactly when [d > max_dimension] and that
    quotient exceeds 1; otherwise the pixmap goes on as it is. *)
Lemma downscale_decision `{L : Fitz} (x : Z) (pix : Pixmap) (m : Z)
    (w : World) :
  m <> 0 ->
  downscale x pix m w
  = if (m <? Z.max (pix_width pix) (pix_height pix))
       && (1 <? Z.max (pix_width pix) (pix_height pix) / m)
    then (add_calls w
            [CallShrink x (Z.max (pix_width pix) (pix_height pix) / m)],
          Ok (shrink pix (Z.max (pix_width pix) (pix_height pix) / m)))
    else (w, Ok pix).
Proof.
  intros Hm. rewrite downscale_run; cbv zeta.
  rewrite (proj2 (Z.eqb_neq m 0) Hm).
  destruct (m <? _); [|reflexivity].
  destruct (1 <? _); reflexivity.
Qed.

(** In the model of PyMuPDF, whenever the script shrinks, the width and the
    height are divided by [2 ^ f], rounding up, for [f = d // m]. *)
Lemma model_downscale_dimensions (x : Z) (p : Model.pixmap) (m : Z)
    (w : World) :
  1 <= m ->
  m < Z.max (Model.p_width p) (Model.p_height p) ->
  1 < Z.max (Model.p_width p) (Model.p_height p) / m ->
  exists p',
    (downscale (L := Model.fitz) x p m w).2 = Ok p'
    /\ Model.p_width p'
       = (Model.p_width p
          + 2 ^ (Z.max (Model.p_width p) (Model.p_height p) / m) - 1)
         / 2 ^ (Z.max (Model.p_width p) (Model.p_height p) / m)
    /\ Model.p_height p'
       = (Model.p_height p
          + 2 ^ (Z.max (Model.p_width p) (Model.p_height p) / m) - 1)
         / 2 ^ (Z.max (Model.p_width p) (Model.p_height p) / m).
Proof.
  intros Hm Hd Hf. rewrite downscale_decision by lia. simpl.
  rewrite (proj2 (Z.ltb_lt _ _) Hd), (proj2 (Z.ltb_lt _ _) Hf). simpl.
  unfold Model.m_shrink.
  rewrite (proj2 (Z.ltb_ge _ _)) by lia.
  eexists. split; [reflexivity|]. by split.
Qed.

(** C1, the code at the failing input.  A 4000x3000 image with
    [max_dimension = 2000]: [d = 4000], [f = 4000 // 2000 = 2], and the
    script calls [pix.shrink(2)].  PyMuPDF's [shrink(n)] divides both
    dimensions by [2**n], so the buffer handed to [tobytes] is 1000x750,
    whereas a shrink by the factor [f] would give 2000x1500, of maximum
    [4000 / 2 = 2000].  The unchanged case of the claim holds: without a
    [shrink] call the pixmap is passed on as it is. *)
Theorem downscale_shrinks_by_power_of_two :
  downscale (L := Model.fitz) 7
    {| Model.p_width := 4000; Model.p_height := 3000;
       Model.p_cs := Some csRGB; Model.p_alpha := false |}
    2000 (Model.world_of [])
  = (add_calls (Model.world_of []) [CallShrink 7 2],
     Ok {| Model.p_width := 1000; Model.p_height := 750;
           Model.p_cs := Some csRGB; Model.p_alpha := false |})
  /\ calls (fst (compress_pdf "in.pdf" "out.pdf" 30 2000
                  (Model.world_of [("in.pdf", Model.pdf 4096 Model.doc_large)])))
     = [ CallOpen "in.pdf"; CallPixmap 7; CallShrink 7 2;
         CallTobytes 7
           {| Model.p_width := 1000; Model.p_height := 750;
              Model.p_cs := Some csRGB; Model.p_alpha := false |} 30;
         CallReplace 0 7 [Byte.xff; Byte.xd8; Byte.x1e; Byte.xe8; Byte.xee];
         CallSave "out.pdf";
         CallClose ]
  /\ 4000 / (4000 / 2000) = 2000
  /\ (forall `{L : Fitz} x pix m w,
        m <> 0 ->
        (m <? Z.max (pix_width pix) (pix_height pix))
        && (1 <? Z.max (pix_width pix) (pix_height pix) / m) = false ->
        downscale x pix m w = (w, Ok pix)).
Proof.
  split; [vm_compute; reflexivity|].
  split; [vm_compute; reflexivity|].
  split; [reflexivity|].
  intros L x pix m w Hm Hno. by rewrite downscale_decision, Hno.
Qed.

(** * Further properties *)

(** ** The call log of the loops *)

Section LogLemmas.
Context `{L : Fitz}.
Implicit Types (doc : Document) (P : gset Z) (w : World) (img : ImageEntry).
Implicit Types (evs : list event) (q m : Z) (page : nat).

Lemma downscale_log (x : Z) (p : Pixmap) m w :
  exists pre,
    (downscale x p m w).1 = add_calls w pre
    /\ (pre = [] \/ exists f, 1 < f /\ pre = [CallShrink x f]).
Proof.
  rewrite downscale_run; cbv zeta.
  destruct (m <? _); [|exists []; rewrite add_calls_nil; auto].
  destruct (m =? 0); [exists []; rewrite add_calls_nil; auto|].
  destruct (1 <? _) eqn:Hf; [|exists []; rewrite add_calls_nil; auto].
  apply Z.ltb_lt in Hf. eexists. split; [reflexivity|]. eauto.
Qed.

(** Lines 53-64 log a preparation, then at most the [tobytes] call whose
    answer they return. *)
Lemma recompress_shape (x : Z) (pix : Pixmap) q m w w' (r : result bytes) :
  recompress x pix q m w = (w', r) ->
  exists pre,
    prepare_log x pre
    /\ ((w' = add_calls w pre /\ is_ok r = false)
        \/ exists buf,
             w' = add_calls w (pre ++ [CallTobytes x buf q])
             /\ r = tobytes buf q).
Proof.
  assert (Hrest : forall p1 c1,
            prepare_log x c1 -> (c1 = [] \/ c1 = [CallConvert x]) ->
            (let* pix0 := downscale x p1 m in reencode x pix0 q)
              (add_calls w c1) = (w', r) ->
            exists pre,
              prepare_log x pre
              /\ ((w' = add_calls w pre /\ is_ok r = false)
                  \/ exists buf,
                       w' = add_calls w (pre ++ [CallTobytes x buf q])
                       /\ r = tobytes buf q)).
  { intros p1 c1 Hpre Hc1. unfold bind.
    rewrite downscale_run; cbv zeta.
    destruct (m <? _).
    2:{ rewrite reencode_run, add_calls_app. intros [= <- <-].
        exists c1. split; [done|]. right. by exists p1. }
    destruct (m =? 0).
    { intros [= <- <-]. exists c1. split; [done|]. by left. }
    destruct (1 <? _) eqn:Hf.
    - apply Z.ltb_lt in Hf.
      rewrite reencode_run, !add_calls_app. intros [= <- <-].
      eexists (c1 ++ [CallShrink x _]). split.
      + destruct Hc1 as [-> | ->]; simpl;
          [by apply prepare_shrink | by apply prepare_both].
      + right. eexists. by rewrite <- app_assoc.
    - rewrite reencode_run, add_calls_app. intros [= <- <-].
      exists c1. split; [done|]. right. by exists p1. }
  unfold recompress. unfold bind at 1. rewrite normalize_colorspace_run.
  destruct (pix_colorspace pix) as [cs|].
  2:{ intros [= <- <-]. exists []. rewrite add_calls_nil.
      split; [apply prepare_none | by left]. }
  destruct (3 <? cs_n cs).
  - destruct (Pixmap_of_cs csRGB pix) as [p1|e].
    + apply (Hrest p1 [CallConvert x]); [apply prepare_convert | auto].
    + intros [= <- <-]. exists [CallConvert x].
      split; [apply prepare_convert | by left].
  - intros H. apply (Hrest pix []); [apply prepare_none | auto |].
    by rewrite add_calls_nil.
Qed.

Lemma process_image_log q m page img (st : Document * gset Z) w :
  exists evs,
    (process_image q m page img st w).1 = add_calls w evs
    /\ iteration_log q page (img_xref img) evs.
Proof.
  destruct st as [doc P].
  destruct (decide (img_xref img ∈ P)) as [Hin|Hnot].
  { rewrite process_image_skip by done. exists []. rewrite add_calls_nil.
    split; [done | constructor]. }
  destruct (Pixmap_of_xref doc (img_xref img)) as [pix|e] eqn:Hpix.
  2:{ rewrite (process_image_unreadable _ _ _ _ _ _ _ e) by done.
      eexists. split; [reflexivity|]. apply iteration_stopped. constructor. }
  destruct (recompress (img_xref img) pix q m
              (add_calls w [CallPixmap (img_xref img)])) as [w2 r] eqn:Hrec.
  rewrite (process_image_readable _ _ _ _ _ _ _ pix w2 r) by done.
  apply recompress_shape in Hrec as (pre & Hpre & Hshape).
  destruct Hshape as [[-> Hr] | (buf & -> & ->)].
  - destruct r; [discriminate|]. simpl. rewrite add_calls_app.
    eexists. split; [reflexivity|]. by apply iteration_stopped.
  - destruct (tobytes buf q) as [b|e] eqn:Hb; simpl; rewrite !add_calls_app.
    + eexists. split; [reflexivity|]. simpl. rewrite <- app_assoc. simpl.
      by apply iteration_replaced.
    + eexists. split; [reflexivity|]. simpl.
      apply iteration_encode_raised; [done | by rewrite Hb].
Qed.

Lemma for_images_log q m page imgs : forall (st : Document * gset Z) w,
  exists evs,
    (for_images q m page imgs st w).1 = add_calls w evs /\ loop_log q evs.
Proof.
  induction imgs as [|img rest IH]; intros st w.
  { exists []. rewrite add_calls_nil. split; [done | constructor]. }
  rewrite for_images_cons.
  destruct (process_image_log q m page img st w) as (e1 & H1 & Hit).
  destruct (process_image q m page img st w) as [w1 [st'|e]]; simpl in H1;
    subst w1.
  - destruct (IH st' (add_calls w e1)) as (e2 & H2 & Hl).
    rewrite H2, add_calls_app. exists (e1 ++ e2). split; [done|].
    by apply loop_step with page (img_xref img).
  - exists (e1 ++ []). rewrite app_nil_r. split; [done|].
    rewrite <- (app_nil_r e1).
    apply loop_step with page (img_xref img); [done | constructor].
Qed.

Lemma loop_log_app q (a b : list event) :
  loop_log q a -> loop_log q b -> loop_log q (a ++ b).
Proof.
  induction 1 as [|page x evs rest Hit Hrest IH]; intros Hb; [done|].
  rewrite <- app_assoc. apply loop_step with page x; auto.
Qed.

Lemma for_pages_log q m total pages : forall (st : Document * gset Z) w,
  exists evs,
    calls (for_pages q m total pages st w).1 = calls w ++ evs
    /\ loop_log q evs.
Proof.
  induction pages as [|i rest IH]; intros st w.
  { exists []. rewrite app_nil_r. split; [done | constructor]. }
  rewrite for_pages_cons.
  destruct (for_images_log q m i (get_images st.1 i) st
              (add_stdout w [progress i total])) as (e1 & H1 & Hl1).
  destruct (for_images q m i (get_images st.1 i) st
              (add_stdout w [progress i total])) as [w1 [st'|e]];
    simpl in H1; subst w1.
  - destruct (IH st' (add_calls (add_stdout w [progress i total]) e1))
      as (e2 & H2 & Hl2).
    exists (e1 ++ e2). split; [|by apply loop_log_app].
    rewrite H2. simpl. by rewrite app_assoc.
  - exists e1. by split.
Qed.

(** A property of single calls that every iteration keeps holds of the
    whole loop log. *)
Lemma loop_log_forall q (f : event -> bool) (evs : list event) :
  (forall page x it, iteration_log q page x it -> forallb f it = true) ->
  loop_log q evs -> forallb f evs = true.
Proof.
  intros Hit. induction 1 as [|page x it rest H Hrest IH]; [done|].
  rewrite forallb_app, IH, (Hit page x it H). reflexivity.
Qed.

End LogLemmas.

(** ** The downscale threshold *)

Lemma quotient_above_one (d m : Z) :
  1 <= m -> (1 <? d / m) = (2 * m <=? d).
Proof.
  intros Hm.
  destruct (2 * m <=? d) eqn:H.
  - apply Z.leb_le in H. apply Z.ltb_lt.
    assert (2 <= d / m) by (apply Z.div_le_lower_bound; lia). lia.
  - apply Z.leb_gt in H. apply Z.ltb_ge.
    assert (d / m < 2) by (apply Z.div_lt_upper_bound; lia). lia.
Qed.

(** X1.  For [max_dimension >= 1], lines 58-61 call [shrink] exactly when the
    larger dimension is at least twice [max_dimension], with the factor
    [d // max_dimension >= 2]; an image whose larger dimension lies between
    [max_dimension] and [2 * max_dimension - 1] goes on unshrunk although it
    exceeds the limit. *)
Theorem downscale_threshold `{L : Fitz} (x : Z) (pix : Pixmap) (m : Z)
    (w : World) :
  1 <= m ->
  downscale x pix m w
  = (if 2 * m <=? Z.max (pix_width pix) (pix_height pix)
     then (add_calls w
             [CallShrink x (Z.max (pix_width pix) (pix_height pix) / m)],
           Ok (shrink pix (Z.max (pix_width pix) (pix_height pix) / m)))
     else (w, Ok pix))
  /\ (2 * m <= Z.max (pix_width pix) (pix_height pix) ->
      2 <= Z.max (pix_width pix) (pix_height pix) / m)
  /\ (Z.max (pix_width pix) (pix_height pix) < 2 * m ->
      downscale x pix m w = (w, Ok pix)).
Proof.
  intros Hm.
  assert (Heq : downscale x pix m w
          = (if 2 * m <=? Z.max (pix_width pix) (pix_height pix)
             then (add_calls w
                     [CallShrink x (Z.max (pix_width pix) (pix_height pix) / m)],
                   Ok (shrink pix (Z.max (pix_width pix) (pix_height pix) / m)))
             else (w, Ok pix))).
  { rewrite downscale_decision by lia. rewrite quotient_above_one by done.
    destruct (2 * m <=? _) eqn:H2; [|by rewrite andb_false_r].
    apply Z.leb_le in H2. by rewrite (proj2 (Z.ltb_lt _ _)) by lia. }
  split; [exact Heq|]. split.
  - intros H2. apply Z.div_le_lower_bound; lia.
  - intros Hlt. rewrite Heq. by rewrite (proj2 (Z.leb_gt _ _)) by lia.
Qed.

Lemma downscale_threshold_witness :
  snd (downscale (L := Model.fitz) 7
         {| Model.p_width := 3999; Model.p_height := 3000;
            Model.p_cs := Some csRGB; Model.p_alpha := false |}
         2000 (Model.world_of []))
  = Ok {| Model.p_width := 3999; Model.p_height := 3000;
          Model.p_cs := Some csRGB; Model.p_alpha := false |}.
Proof.
  destruct (downscale_threshold (L := Model.fitz) 7
              {| Model.p_width := 3999; Model.p_height := 3000;
                 Model.p_cs := Some csRGB; Model.p_alpha := false |}
              2000 (Model.world_of []) ltac:(lia)) as (_ & _ & H).
  exact (f_equal snd (H ltac:(simpl; lia))).
Defined.

(** X2.  A negative [max_dimension], which the command line accepts, turns
    the downscale step off: for a pixmap with non-negative dimensions the
    comparison of line 58 holds, the quotient of line 59 is at most 0, and
    the pixmap goes on as it is, with no [shrink] call and no exception. *)
Theorem negative_max_dimension_disables_downscale `{L : Fitz} (x : Z)
    (pix : Pixmap) (m : Z) (w : World) :
  m < 0 ->
  0 <= Z.max (pix_width pix) (pix_height pix) ->
  Z.max (pix_width pix) (pix_height pix) / m <= 0
  /\ downscale x pix m w = (w, Ok pix).
Proof.
  intros Hm Hd.
  assert (Hq : Z.max (pix_width pix) (pix_height pix) / m <= 0).
  { pose proof (Z.div_mod (Z.max (pix_width pix) (pix_height pix)) m
                  ltac:(lia)) as Hdm.
    pose proof (Z.mod_neg_bound (Z.max (pix_width pix) (pix_height pix)) m Hm).
    nia. }
  split; [exact Hq|].
  rewrite downscale_decision by lia.
  by rewrite (proj2 (Z.ltb_ge 1 _)), andb_false_r by lia.
Qed.

Lemma negative_max_dimension_witness :
  snd (downscale (L := Model.fitz) 7
         {| Model.p_width := 4000; Model.p_height := 3000;
            Model.p_cs := Some csRGB; Model.p_alpha := false |}
         (-5) (Model.world_of []))
  = Ok {| Model.p_width := 4000; Model.p_height := 3000;
          Model.p_cs := Some csRGB; Model.p_alpha := false |}.
Proof.
  destruct (negative_max_dimension_disables_downscale (L := Model.fitz) 7
              {| Model.p_width := 4000; Model.p_height := 3000;
                 Model.p_cs := Some csRGB; Model.p_alpha := false |}
              (-5) (Model.world_of []) ltac:(lia) ltac:(simpl; lia))
    as (_ & H).
  exact (f_equal snd H).
Defined.

(** ** Documents without a readable image *)

Section Unreadable.
Context `{L : Fitz}.
Implicit Types (doc : Document) (P : gset Z) (w : World) (img : ImageEntry).

Lemma for_images_unreadable (q m : Z) (page : nat) (imgs : list ImageEntry)
    doc P :
  any_readable doc imgs = false ->
  forall w,
    exists evs,
      for_images q m page imgs (doc, P) w = (add_calls w evs, Ok (doc, P))
      /\ forallb (fun e => match e with CallPixmap _ => true | _ => false end)
           evs = true.
Proof.
  induction imgs as [|img rest IH]; intros Hnone w.
  { exists []. by rewrite add_calls_nil. }
  simpl in Hnone. apply orb_false_iff in Hnone as [Himg Hrest].
  rewrite for_images_cons.
  destruct (decide (img_xref img ∈ P)) as [Hin|Hnot].
  - rewrite process_image_skip by done. by apply IH.
  - destruct (Pixmap_of_xref doc (img_xref img)) as [pix|e] eqn:Hpix;
      [discriminate|].
    rewrite (process_image_unreadable _ _ _ _ _ _ _ e) by done.
    destruct (IH Hrest (add_calls w [CallPixmap (img_xref img)]))
      as (evs & -> & Hall).
    rewrite add_calls_app. eexists. split; [reflexivity|]. exact Hall.
Qed.

Lemma for_pages_unreadable (q m : Z) (total : nat) (pages : list nat) doc P :
  any_page_readable doc pages = false ->
  forall w,
    exists evs,
      (for_pages q m total pages (doc, P) w).2 = Ok (doc, P)
      /\ calls (for_pages q m total pages (doc, P) w).1 = calls w ++ evs
      /\ forallb (fun e => match e with CallPixmap _ => true | _ => false end)
           evs = true.
Proof.
  induction pages as [|i rest IH]; intros Hnone w.
  { exists []. by rewrite app_nil_r. }
  simpl in Hnone. apply orb_false_iff in Hnone as [Hi Hrest].
  rewrite for_pages_cons. simpl fst.
  destruct (for_images_unreadable q m i (get_images doc i) doc P Hi
              (add_stdout w [progress i total])) as (e1 & -> & H1).
  destruct (IH Hrest (add_calls (add_stdout w [progress i total]) e1))
    as (e2 & Hr & Hc & H2).
  exists (e1 ++ e2). split; [exact Hr|]. split.
  - rewrite Hc. simpl. by rewrite app_assoc.
  - by rewrite forallb_app, H1, H2.
Qed.

End Unreadable.

(** X3.  When no image listed by any page materializes (in particular when
    the document has no page or no image), the loops end normally whatever
    [quality] and [max_dimension] are, even [max_dimension = 0]; they call
    nothing but [fitz.Pixmap], leave the document and the empty
    processed-set as they were, and [compress_pdf] saves the document
    exactly as it was opened, then closes it. *)
Theorem unreadable_images_leave_document `{L : Fitz} (input output : string)
    (q m : Z) (w : World) (f f' : File) (doc : Document) :
  fs w !! input = Some f ->
  fitz_open f = Ok doc ->
  any_page_readable doc (seq 0 (page_count doc)) = false ->
  doc_save doc (fs w !! output) = (Some f', None) ->
  (exists evs,
     (for_pages q m (page_count doc) (seq 0 (page_count doc)) (doc, ∅)
        (add_calls w [CallOpen input])).2 = Ok (doc, ∅)
     /\ calls (compress_pdf input output q m w).1
        = calls w ++ [CallOpen input] ++ evs ++ [CallSave output; CallClose]
     /\ forallb (fun e => match e with CallPixmap _ => true | _ => false end)
          evs = true)
  /\ (compress_pdf input output q m w).2 = Ok tt
  /\ fs (compress_pdf input output q m w).1 = <[output := f']> (fs w).
Proof.
  intros Hin Hopen Hnone Hsave.
  destruct (for_pages_unreadable q m (page_count doc) (seq 0 (page_count doc))
              doc ∅ Hnone (add_calls w [CallOpen input]))
    as (evs & Hr & Hc & Hall).
  rewrite (compress_pdf_run _ _ _ _ _ f doc) by done.
  destruct (for_pages q m (page_count doc) (seq 0 (page_count doc)) (doc, ∅)
              (add_calls w [CallOpen input])) as [w1 r].
  simpl in Hr, Hc. subst r. simpl fst. rewrite Hsave. simpl.
  split; [|by split].
  exists evs. split; [done|]. split; [|done].
  rewrite Hc. by rewrite <- !app_assoc.
Qed.

Lemma unreadable_images_witness :
  snd (compress_pdf "in.pdf" "out.pdf" 30 0
         (Model.world_of
            [("in.pdf", Model.pdf 4096 Model.doc_shared_corrupt)]))
  = Ok tt
  /\ Model.f_doc
       <$> (fs (fst (compress_pdf "in.pdf" "out.pdf" 30 0
                       (Model.world_of
                          [("in.pdf", Model.pdf 4096 Model.doc_shared_corrupt)])))
              !! "out.pdf")
     = Some (Some Model.doc_shared_corrupt).
Proof.
  destruct (unreadable_images_leave_document (L := Model.fitz)
              "in.pdf" "out.pdf" 30 0
              (Model.world_of
                 [("in.pdf", Model.pdf 4096 Model.doc_shared_corrupt)])
              (Model.pdf 4096 Model.doc_shared_corrupt)
              {| Model.f_size := 116;
                 Model.f_doc := Some Model.doc_shared_corrupt |}
              Model.doc_shared_corrupt eq_refl eq_refl eq_refl eq_refl)
    as (_ & Hr & Hfs).
  split; [exact Hr|]. rewrite Hfs. reflexivity.
Defined.

(** ** What a run does to the file system *)

Lemma lookup_write_file_ne `{L : Fitz} (path other : string) (o : option File)
    (files : gmap string File) :
  other <> path -> write_file path o files !! other = files !! other.
Proof.
  intros Hne. destruct o; simpl.
  - by rewrite lookup_insert_ne.
  - by rewrite lookup_delete_ne.
Qed.

Lemma lookup_write_file `{L : Fitz} (path : string) (o : option File)
    (files : gmap string File) :
  write_file path o files !! path = o.
Proof.
  destruct o; simpl; [apply lookup_insert_eq | apply lookup_delete_eq].
Qed.

(** The file system after a run: as before, or as the save left it. *)
Lemma compress_pdf_fs `{L : Fitz} (input output : string) (q m : Z)
    (w : World) :
  fs (compress_pdf input output q m w).1 = fs w
  \/ (exists o, fs (compress_pdf input output q m w).1
                = write_file output o (fs w)).
Proof.
  destruct (fs w !! input) as [f|] eqn:Hin.
  2:{ left. unfold compress_pdf. by rewrite Hin. }
  destruct (fitz_open f) as [doc|e] eqn:Hopen.
  2:{ left. unfold compress_pdf. rewrite Hin. unfold bind, call, lift; simpl.
      by rewrite Hopen. }
  rewrite (compress_pdf_run _ _ _ _ _ f doc) by done.
  pose proof (for_pages_fs q m (page_count doc) (seq 0 (page_count doc))
                (doc, ∅) (add_calls w [CallOpen input])) as Hfs.
  destruct (for_pages q m (page_count doc) (seq 0 (page_count doc)) (doc, ∅)
              (add_calls w [CallOpen input])) as [w1 [st|e]]; simpl in Hfs;
    [|by left].
  right.
  destruct (doc_save st.1 (fs w !! output)) as [[f'|] [e|]]; simpl.
  - by exists (Some f').
  - by exists (Some f').
  - by exists None.
  - by exists None.
Qed.

(** X4.  The script itself writes no file: the file system changes only
    inside [doc.save], which is taken to write at the path it is given and
    nowhere else.  When the input is
    missing, when [fitz.open] raises and when an image step raises, the
    file system is exactly as before.  When the loops end, the output path
    holds whatever [doc.save] left there: the file it wrote when it
    returned, and, when it raised, possibly a new or truncated file (the
    script removes nothing).  Every other path keeps its content in every
    run, and a run that ends normally on an existing input leaves a file at
    the output path. *)
Theorem output_written_only_by_save `{L : Fitz} (input output : string)
    (q m : Z) (w : World) :
  (fs w !! input = None ->
   fs (compress_pdf input output q m w).1 = fs w)
  /\ (forall f e,
        fs w !! input = Some f -> fitz_open f = Raise e ->
        (compress_pdf input output q m w).2 = Raise e
        /\ fs (compress_pdf input output q m w).1 = fs w)
  /\ (forall f doc w1 e,
        fs w !! input = Some f -> fitz_open f = Ok doc ->
        for_pages q m (page_count doc) (seq 0 (page_count doc)) (doc, ∅)
          (add_calls w [CallOpen input]) = (w1, Raise e) ->
        (compress_pdf input output q m w).2 = Raise e
        /\ fs (compress_pdf input output q m w).1 = fs w)
  /\ (forall f doc w1 st,
        fs w !! input = Some f -> fitz_open f = Ok doc ->
        for_pages q m (page_count doc) (seq 0 (page_count doc)) (doc, ∅)
          (add_calls w [CallOpen input]) = (w1, Ok st) ->
        fs (compress_pdf input output q m w).1
        = write_file output (doc_save st.1 (fs w !! output)).1 (fs w)
        /\ fs (compress_pdf input output q m w).1 !! output
           = (doc_save st.1 (fs w !! output)).1
        /\ (forall e, (doc_save st.1 (fs w !! output)).2 = Some e ->
              (compress_pdf input output q m w).2 = Raise e))
  /\ (forall path, path <> output ->
        fs (compress_pdf input output q m w).1 !! path = fs w !! path)
  /\ (is_ok (compress_pdf input output q m w).2 = true ->
      is_Some (fs w !! input) ->
      is_Some (fs (compress_pdf input output q m w).1 !! output)).
Proof.
  split; [|split; [|split; [|split; [|split]]]].
  - intros Hin. unfold compress_pdf. by rewrite Hin.
  - intros f e Hin Hopen. unfold compress_pdf. rewrite Hin.
    unfold bind, call, lift; simpl. by rewrite Hopen.
  - intros f doc w1 e Hin Hopen Hrun.
    rewrite (compress_pdf_run _ _ _ _ _ f doc) by done.
    pose proof (for_pages_fs q m (page_count doc) (seq 0 (page_count doc))
                  (doc, ∅) (add_calls w [CallOpen input])) as Hfs.
    rewrite Hrun in Hfs |- *. by split.
  - intros f doc w1 st Hin Hopen Hrun.
    rewrite (compress_pdf_run _ _ _ _ _ f doc) by done. rewrite Hrun.
    destruct (doc_save st.1 (fs w !! output)) as [[f'|] [e|]]; simpl;
      rewrite ?lookup_insert_eq, ?lookup_delete_eq;
      (split; [done|]); (split; [done|]); by intros e' [= <-].
  - intros path Hne.
    destruct (compress_pdf_fs input output q m w) as [Hfs | [o Hfs]];
      rewrite Hfs; [done|].
    by apply lookup_write_file_ne.
  - intros Hr [f Hin].
    destruct (fitz_open f) as [doc|e] eqn:Hopen.
    2:{ revert Hr. unfold compress_pdf. rewrite Hin.
        unfold bind, call, lift; simpl. by rewrite Hopen. }
    revert Hr. rewrite (compress_pdf_run _ _ _ _ _ f doc) by done.
    destruct (for_pages q m (page_count doc) (seq 0 (page_count doc)) (doc, ∅)
                (add_calls w [CallOpen input])) as [w1 [st|e]]; [|done].
    destruct (doc_save st.1 (fs w !! output)) as [[f'|] [e|]]; simpl;
      try done.
    intros _. rewrite lookup_insert_eq. by eexists.
Qed.

(** On a full disk the save creates the file and then raises: the run ends
    with that exception, the document is not closed, and the empty output
    file stays. *)
Example failed_save_leaves_partial_output :
  snd (compress_pdf (L := Model.fitz_disk_full) "in.pdf" "out.pdf" 30 2000
         (Model.world_disk_full
            [("in.pdf", Model.pdf 4096 Model.doc_shared_corrupt)]))
  = Raise (OSError "No space left on device")
  /\ fs (fst (compress_pdf (L := Model.fitz_disk_full) "in.pdf" "out.pdf"
                30 2000
                (Model.world_disk_full
                   [("in.pdf", Model.pdf 4096 Model.doc_shared_corrupt)])))
       !! "out.pdf"
     = Some {| Model.f_size := 0; Model.f_doc := None |}
  /\ calls (fst (compress_pdf (L := Model.fitz_disk_full) "in.pdf" "out.pdf"
                   30 2000
                   (Model.world_disk_full
                      [("in.pdf", Model.pdf 4096 Model.doc_shared_corrupt)])))
     = [ CallOpen "in.pdf"; CallPixmap 5; CallPixmap 5; CallSave "out.pdf" ].
Proof. vm_compute. repeat split; reflexivity. Qed.

(** ** The destination path *)

(** At the last occurrence of [c] the string reads [c], and [c] does not
    occur after it. *)
Lemma rfind_found (c : ascii) (s : string) :
  0 <= PyStr.rfind c s ->
  exists rest,
    PyStr.drop (Z.to_nat (PyStr.rfind c s)) s = String c rest
    /\ PyStr.rfind c rest = -1.
Proof.
  induction s as [|a s IH]; simpl; [lia|].
  destruct (0 <=? PyStr.rfind c s) eqn:Hr.
  - apply Z.leb_le in Hr. intros _. destruct (IH Hr) as (rest & Hd & Hn).
    exists rest. split; [|done].
    replace (Z.to_nat (PyStr.rfind c s + 1))
      with (S (Z.to_nat (PyStr.rfind c s))) by lia.
    exact Hd.
  - apply Z.leb_gt in Hr. destruct (Ascii.eqb a c) eqn:Hac; [|lia].
    intros _. apply Ascii.eqb_eq in Hac. subst a. exists s. split; [done|].
    pose proof (rfind_bounds c s). lia.
Qed.

Lemma rfind_tail (c a : ascii) (s : string) :
  PyStr.rfind c (String a s) = -1 -> PyStr.rfind c s = -1.
Proof.
  simpl. pose proof (rfind_bounds c s).
  destruct (0 <=? PyStr.rfind c s) eqn:Hr; [apply Z.leb_le in Hr; lia|].
  apply Z.leb_gt in Hr. lia.
Qed.

(** X7.  The extension [os.path.splitext] returns is empty, or a period
    followed by characters among which there is neither a period nor a
    ["/"]; the root and the extension put together are the path. *)
Theorem splitext_extension_shape (p : string) :
  (OsPath.splitext p).1 +:+ (OsPath.splitext p).2 = p
  /\ ((OsPath.splitext p).2 = EmptyString
      \/ exists rest,
           (OsPath.splitext p).2 = String OsPath.extsep rest
           /\ PyStr.rfind OsPath.extsep rest = -1
           /\ PyStr.rfind OsPath.sep rest = -1).
Proof.
  split; [apply splitext_concat|].
  pose proof (splitext_ext_no_sep p) as Hsep. revert Hsep.
  unfold OsPath.splitext.
  destruct (_ <? _) eqn:Hlt; simpl; [|by left].
  destruct (OsPath.skip_leading_dots _ _ _); simpl; [|by left].
  intros Hsep. right. apply Z.ltb_lt in Hlt.
  pose proof (rfind_bounds OsPath.sep p).
  destruct (rfind_found OsPath.extsep p ltac:(lia)) as (rest & Hd & Hn).
  rewrite Hd in Hsep |- *. exists rest. split; [done|]. split; [done|].
  by apply rfind_tail with OsPath.extsep.
Qed.

Lemma length_default_output `{L : Fitz} (input : string) (q m : Z) :
  String.length
    (output_path_of {| arg_input := input; arg_output := None;
                       arg_quality := q; arg_max_dim := m |})
  = (String.length input + 11)%nat.
Proof.
  unfold output_path_of; simpl.
  pose proof (splitext_concat input) as Hc.
  destruct (OsPath.splitext input) as [name ext]. simpl in Hc.
  rewrite !length_append. rewrite <- Hc. rewrite length_append.
  simpl. lia.
Qed.

(** X5.  The destination path handed to [compress_pdf] is never the empty
    string: a non-empty [-o] value is used as it is, and an empty one is
    treated like a missing one (line 106, [if not output_pdf]) and replaced
    by the default, which is 11 characters longer than the input path. *)
Theorem output_path_never_empty `{L : Fitz} (args : Args) :
  (0 < String.length (output_path_of args))%nat
  /\ (forall o, arg_output args = Some o -> o <> EmptyString ->
        output_path_of args = o)
  /\ (arg_output args = Some EmptyString ->
      output_path_of args
      = output_path_of {| arg_input := arg_input args; arg_output := None;
                          arg_quality := arg_quality args;
                          arg_max_dim := arg_max_dim args |}).
Proof.
  pose proof (length_default_output (arg_input args) (arg_quality args)
                (arg_max_dim args)) as Hlen.
  unfold output_path_of in *. simpl in Hlen.
  split; [|split].
  - destruct (arg_output args) as [o|]; [|lia].
    destruct (String.eqb o "") eqn:Ho; [lia|].
    apply String.eqb_neq in Ho. destruct o; [done | simpl; lia].
  - intros o -> Ho. apply String.eqb_neq in Ho. by rewrite Ho.
  - by intros ->.
Qed.

(** X6.  With no [-o] value the destination differs from the input path,
    so the tool never writes onto its input: after any run, normal or not,
    the input path holds what it held before. *)
Theorem default_output_keeps_input `{L : Fitz} (input : string) (q m : Z)
    (w : World) :
  output_path_of {| arg_input := input; arg_output := None;
                    arg_quality := q; arg_max_dim := m |} <> input
  /\ fs (main {| arg_input := input; arg_output := None;
                 arg_quality := q; arg_max_dim := m |} w).1 !! input
     = fs w !! input.
Proof.
  assert (Hne : output_path_of {| arg_input := input; arg_output := None;
                                  arg_quality := q; arg_max_dim := m |}
                <> input).
  { intros Heq. pose proof (length_default_output input q m) as Hlen.
    rewrite Heq in Hlen. lia. }
  split; [exact Hne|].
  unfold main. simpl arg_input. simpl arg_quality. simpl arg_max_dim.
  destruct (compress_pdf_fs input
              (output_path_of {| arg_input := input; arg_output := None;
                                 arg_quality := q; arg_max_dim := m |})
              q m w)
    as [Hfs | [o Hfs]]; rewrite Hfs; [done|].
  by apply lookup_write_file_ne.
Qed.

(** ** The calls of a whole run *)

Section RunLog.
Context `{L : Fitz}.
Implicit Types (w : World) (evs : list event) (q m : Z) (page : nat).

Lemma prepare_log_forall (x : Z) (f : event -> bool) (pre : list event) :
  prepare_log x pre ->
  f (CallConvert x) = true ->
  (forall k, 1 < k -> f (CallShrink x k) = true) ->
  forallb f pre = true.
Proof.
  intros Hpre Hc Hs. destruct Hpre; simpl; rewrite ?Hc, ?Hs by done; done.
Qed.

Lemma iteration_log_forall q page (x : Z) (f : event -> bool) evs :
  iteration_log q page x evs ->
  f (CallPixmap x) = true ->
  f (CallConvert x) = true ->
  (forall k, 1 < k -> f (CallShrink x k) = true) ->
  (forall buf, f (CallTobytes x buf q) = true) ->
  (forall b, f (CallReplace page x b) = true) ->
  forallb f evs = true.
Proof.
  intros Hit Hp Hc Hs Ht Hr.
  destruct Hit as [|pre Hpre|pre buf Hpre _|pre buf b Hpre _]; simpl;
    rewrite ?Hp, ?forallb_app, ?(prepare_log_forall x f pre) by done; simpl;
    rewrite ?Ht, ?Hr; done.
Qed.

(** The calls a run adds: none when the input is missing; otherwise the
    open, the loop's calls, the save when the loop ended normally, and the
    close when the save returned. *)
Lemma compress_pdf_log (input output : string) q m w :
  exists evs,
    calls (compress_pdf input output q m w).1 = calls w ++ evs
    /\ (evs = []
        \/ exists body,
             loop_log q body
             /\ (evs = CallOpen input :: body
                 \/ evs = CallOpen input :: body ++ [CallSave output]
                 \/ evs = CallOpen input :: body
                             ++ [CallSave output; CallClose])).
Proof.
  destruct (fs w !! input) as [f|] eqn:Hin.
  2:{ unfold compress_pdf. rewrite Hin. exists []. simpl.
      rewrite app_nil_r. auto. }
  destruct (fitz_open f) as [doc|e] eqn:Hopen.
  2:{ unfold compress_pdf. rewrite Hin. unfold bind, call, lift; simpl.
      rewrite Hopen. exists [CallOpen input]. split; [done|]. right.
      exists []. split; [constructor | by left]. }
  rewrite (compress_pdf_run _ _ _ _ _ f doc) by done.
  destruct (for_pages_log q m (page_count doc) (seq 0 (page_count doc))
              (doc, ∅) (add_calls w [CallOpen input])) as (body & Hc & Hl).
  destruct (for_pages q m (page_count doc) (seq 0 (page_count doc)) (doc, ∅)
              (add_calls w [CallOpen input])) as [w1 [st|e]]; simpl in Hc.
  - destruct (doc_save st.1 (fs w !! output)) as [[f'|] [e|]]; simpl;
      rewrite Hc;
      (eexists (CallOpen input :: body ++ _);
       split; [by rewrite <- !app_assoc|]); right; exists body; auto.
  - exists (CallOpen input :: body). split.
    + simpl. rewrite Hc. by rewrite <- app_assoc.
    + right. exists body. auto.
Qed.

Lemma run_log_forall (input output : string) q m w (f : event -> bool) :
  (forall p, f (CallOpen p) = true) ->
  (forall p, f (CallSave p) = true) ->
  f CallClose = true ->
  (forall page x it, iteration_log q page x it -> forallb f it = true) ->
  exists evs,
    calls (compress_pdf input output q m w).1 = calls w ++ evs
    /\ forallb f evs = true.
Proof.
  intros Ho Hs Hcl Hit.
  destruct (compress_pdf_log input output q m w)
    as (evs & Hc & [-> | (body & Hl & [-> | [-> | ->]])]);
    eexists; (split; [exact Hc|]); simpl;
    rewrite ?Ho, ?forallb_app, ?(loop_log_forall q f body Hit Hl); simpl;
    rewrite ?Hs, ?Hcl; done.
Qed.

(** No replacement in a list: it cannot be cut at one. *)
Lemma no_replace_cut (l l1 l2 : list event) page (x : Z) (b : bytes) :
  forallb (fun e => match e with CallReplace _ _ _ => false | _ => true end)
    l = true ->
  l <> l1 ++ CallReplace page x b :: l2.
Proof.
  intros Hall ->. rewrite forallb_app in Hall. simpl in Hall.
  by rewrite andb_false_r in Hall.
Qed.

(** A list without replacement followed by one: the only cut at a
    replacement is at the end. *)
Lemma last_replace_cut (l : list event) (e : event) :
  forallb (fun e => match e with CallReplace _ _ _ => false | _ => true end)
    l = true ->
  forall l1 l2 page (x : Z) (b : bytes),
    l ++ [e] = l1 ++ CallReplace page x b :: l2 ->
    l1 = l /\ e = CallReplace page x b /\ l2 = [].
Proof.
  induction l as [|a l IH]; intros Hall l1 l2 page x b Heq.
  - destruct l1 as [|a1 l1]; simpl in Heq.
    + by injection Heq as -> <-.
    + injection Heq as _ Heq. by destruct l1.
  - simpl in Hall. apply andb_true_iff in Hall as [Ha Hl].
    destruct l1 as [|a1 l1]; simpl in Heq.
    + injection Heq as -> _. discriminate.
    + injection Heq as <- Heq.
      destruct (IH Hl _ _ _ _ _ Heq) as (-> & -> & ->). done.
Qed.

End RunLog.

(** X8.  The quality given to [compress_pdf] reaches the encoder unchanged
    and unchecked: every [tobytes] call a run makes carries exactly that
    value, whatever it is (no clamping to 1-100). *)
Theorem quality_is_passed_unchanged `{L : Fitz} (input output : string)
    (q m : Z) (w : World) :
  exists evs,
    calls (compress_pdf input output q m w).1 = calls w ++ evs
    /\ forallb (tobytes_quality q) evs = true
    /\ (forall x buf q', CallTobytes x buf q' ∈ evs -> q' = q).
Proof.
  destruct (run_log_forall input output q m w (tobytes_quality q))
    as (evs & Hc & Hall); try done.
  { intros page x it Hit.
    apply (iteration_log_forall q page x); try done.
    intros buf. simpl. apply Z.eqb_refl. }
  exists evs. split; [done|]. split; [done|].
  intros x buf q' Hin.
  rewrite forallb_forall in Hall.
  specialize (Hall _ (proj1 (list_elem_of_In _ _) Hin)).
  simpl in Hall. by apply Z.eqb_eq in Hall.
Qed.

(** X9.  Whatever [max_dimension] is (zero and negative values included),
    no run calls [shrink] with a factor below 2. *)
Theorem shrink_factor_at_least_two `{L : Fitz} (input output : string)
    (q m : Z) (w : World) :
  exists evs,
    calls (compress_pdf input output q m w).1 = calls w ++ evs
    /\ (forall x f, CallShrink x f ∈ evs -> 2 <= f).
Proof.
  destruct (run_log_forall input output q m w shrink_factor_ok)
    as (evs & Hc & Hall); try done.
  { intros page x it Hit.
    apply (iteration_log_forall q page x); try done.
    intros k Hk. simpl. apply Z.leb_le. lia. }
  exists evs. split; [done|].
  intros x f Hin.
  rewrite forallb_forall in Hall.
  specialize (Hall _ (proj1 (list_elem_of_In _ _) Hin)).
  simpl in Hall. by apply Z.leb_le in Hall.
Qed.


(** X11.  [replace_image] only ever receives the JPEG just made for the same
    xref: in the calls of a run, every replacement of xref [x] with bytes
    [b] comes directly after a [tobytes] call for [x] that returned [b]. *)
Theorem replacement_follows_its_encoding `{L : Fitz} (input output : string)
    (q m : Z) (w : World) :
  exists evs,
    calls (compress_pdf input output q m w).1 = calls w ++ evs
    /\ forall l1 l2 page x b,
         evs = l1 ++ CallReplace page x b :: l2 ->
         exists l0 buf,
           l1 = l0 ++ [CallTobytes x buf q] /\ tobytes buf q = Ok b.
Proof.
  set (Q := fun evs : list event =>
         forall l1 l2 page x b,
           evs = l1 ++ CallReplace page x b :: l2 ->
           exists l0 buf,
             l1 = l0 ++ [CallTobytes x buf q] /\ tobytes buf q = Ok b).
  set (plain := fun e : event =>
         match e with CallReplace _ _ _ => false | _ => true end).
  assert (Hplain : forall l, forallb plain l = true -> Q l).
  { intros l Hall l1 l2 page x b Heq. by apply no_replace_cut in Heq. }
  assert (Happ : forall a b, Q a -> Q b -> Q (a ++ b)).
  { intros a b Ha Hb l1 l2 page x bs Heq.
    apply app_eq_app in Heq as (l & [[-> Hcut] | [-> Hcut]]).
    - destruct l as [|e l].
      + simpl in Hcut.
        destruct (Hb [] l2 page x bs (eq_sym Hcut)) as (l0 & buf & Hnil & _).
        by destruct l0.
      + injection Hcut as <- ->. by apply (Ha l1 l page x bs).
    - destruct (Hb l l2 page x bs Hcut) as (l0 & buf & -> & Hok).
      exists (a ++ l0), buf. by rewrite app_assoc. }
  assert (Hprep : forall x pre, prepare_log x pre -> forallb plain pre = true).
  { intros x pre Hpre. by apply (prepare_log_forall x). }
  assert (Hit : forall page x it, iteration_log q page x it -> Q it).
  { intros page x it H.
    destruct H as [|pre Hpre|pre buf Hpre Hraise|pre buf b Hpre Hok].
    - by apply Hplain.
    - apply Hplain. simpl. by apply (Hprep x).
    - apply Hplain. simpl. rewrite forallb_app, (Hprep x) by done. done.
    - intros l1 l2 page' x' b' Heq.
      change (CallPixmap x :: pre ++ [CallTobytes x buf q; CallReplace page x b])
        with ((CallPixmap x :: pre ++ [CallTobytes x buf q; CallReplace page x b]))
        in Heq.
      replace (CallPixmap x :: pre ++ [CallTobytes x buf q; CallReplace page x b])
        with ((CallPixmap x :: pre ++ [CallTobytes x buf q])
                ++ [CallReplace page x b]) in Heq
        by (simpl; by rewrite <- app_assoc).
      apply last_replace_cut in Heq as (-> & [= <- <- <-] & ->).
      + exists (CallPixmap x :: pre), buf. by split.
      + simpl. rewrite forallb_app, (Hprep x) by done. done. }
  assert (Hloop : forall body, loop_log q body -> Q body).
  { induction 1 as [|page x it rest H Hrest IH]; [by apply Hplain|].
    apply Happ; [by apply (Hit page x) | done]. }
  destruct (compress_pdf_log input output q m w)
    as (evs & Hc & [-> | (body & Hl & [-> | [-> | ->]])]);
    eexists; (split; [exact Hc|]); fold (Q []) ||
      fold (Q (CallOpen input :: body)) ||
      fold (Q (CallOpen input :: body ++ [CallSave output])) ||
      fold (Q (CallOpen input :: body ++ [CallSave output; CallClose])).
  - by apply Hplain.
  - change (Q ([CallOpen input] ++ body)).
    apply Happ; [by apply Hplain | by apply Hloop].
  - change (Q ([CallOpen input] ++ body ++ [CallSave output])).
    apply Happ; [by apply Hplain|].
    apply Happ; [by apply Hloop | by apply Hplain].
  - change (Q ([CallOpen input] ++ body ++ [CallSave output; CallClose])).
    apply Happ; [by apply Hplain|].
    apply Happ; [by apply Hloop | by apply Hplain].
Qed.

(** ** What a run prints *)

Lemma for_pages_stdout `{L : Fitz} (q m : Z) (total : nat) (pages : list nat) :
  forall (st : Document * gset Z) (w : World),
    exists k,
      (k <= length pages)%nat
      /\ stdout (for_pages q m total pages st w).1
         = stdout w ++ map (fun i => progress i total) (take k pages)
      /\ (is_ok (for_pages q m total pages st w).2 = true ->
          k = length pages).
Proof.
  induction pages as [|i rest IH]; intros st w.
  { exists 0%nat. simpl. rewrite app_nil_r. auto. }
  rewrite for_pages_cons.
  destruct (for_images_world q m i (get_images st.1 i) st
              (add_stdout w [progress i total])) as (e1 & H1).
  destruct (for_images q m i (get_images st.1 i) st
              (add_stdout w [progress i total])) as [w1 [st'|e]];
    simpl in H1; subst w1.
  - destruct (IH st' (add_calls (add_stdout w [progress i total]) e1))
      as (k & Hk & Hout & Hall).
    exists (S k). split; [simpl; lia|]. split.
    + rewrite Hout. simpl. by rewrite <- app_assoc.
    + intros Hok. by rewrite (Hall Hok).
  - exists 1%nat. split; [simpl; lia|]. split; [|discriminate].
    reflexivity.
Qed.

(** X12.  The page loop prints one progress line per page it starts, in
    page order and numbered from 1, and nothing else: all the pages when it
    ends normally, a prefix of them when an exception stops it.  A run of
    [compress_pdf] that ends normally on an existing input therefore prints
    exactly the [n] progress lines of its [n] pages, the "Saving" line and
    the size report. *)
Theorem progress_line_per_page `{L : Fitz} (q m : Z) :
  (forall total pages st w,
     exists k,
       (k <= length pages)%nat
       /\ stdout (for_pages q m total pages st w).1
          = stdout w ++ map (fun i => progress i total) (take k pages)
       /\ (is_ok (for_pages q m total pages st w).2 = true ->
           k = length pages))
  /\ (forall input output w f doc,
        fs w !! input = Some f ->
        fitz_open f = Ok doc ->
        is_ok (compress_pdf input output q m w).2 = true ->
        exists a b,
          stdout (compress_pdf input output q m w).1
          = stdout w
            ++ map (fun i => progress i (page_count doc))
                 (seq 0 (page_count doc))
            ++ [saving_message] ++ report_lines a b).
Proof.
  split; [intros; apply for_pages_stdout|].
  intros input output w f doc Hin Hopen.
  rewrite (compress_pdf_run _ _ _ _ _ f doc) by done.
  destruct (for_pages_stdout q m (page_count doc) (seq 0 (page_count doc))
              (doc, ∅) (add_calls w [CallOpen input]))
    as (k & Hk & Hout & Hall).
  destruct (for_pages q m (page_count doc) (seq 0 (page_count doc)) (doc, ∅)
              (add_calls w [CallOpen input])) as [w1 [st|e]];
    simpl in Hout, Hall; [|discriminate].
  destruct (doc_save st.1 (fs w !! output)) as [[f'|] [e|]];
    [discriminate| |discriminate..].
  intros _. eexists _, _. simpl. rewrite Hout, (Hall eq_refl).
  rewrite firstn_all. by rewrite <- !app_assoc.
Qed.

Lemma progress_line_per_page_witness :
  stdout (fst (compress_pdf "in.pdf" "out.pdf" 30 2000
                 (Model.world_of [("in.pdf", Model.pdf 4096 Model.doc_shared)])))
  = [ "Processing page 1/2..." +:+ CR;
      "Processing page 2/2..." +:+ CR;
      NL +:+ "Saving compressed PDF..." +:+ NL;
      "Original size: 0.00 MB" +:+ NL;
      "Compressed size: 0.00 MB" +:+ NL;
      "Reduction: 97.3%" +:+ NL ].
Proof.
  destruct (progress_line_per_page (L := Model.fitz) 30 2000) as [_ H].
  destruct (H "in.pdf" "out.pdf"
              (Model.world_of [("in.pdf", Model.pdf 4096 Model.doc_shared)])
              (Model.pdf 4096 Model.doc_shared) Model.doc_shared
              eq_refl eq_refl eq_refl) as (a & b & Hout).
  vm_compute. reflexivity.
Defined.
